(** * ai_trade_bot.py: the polling-decision loop, embedded and verified

    A shallow embedding of [src/ai_trade_bot.py]: the CoinGecko / CoinCodex
    helpers, the prompt builder [groq_decision], the feed helper
    [latest_news] and the [TradingBot] worker with its shared snapshot and
    log.  Python values are modelled as the interpreter has them: [str] is a
    sequence of Unicode code points, [float] is an IEEE binary64 value
    (through the Standard Library's [SpecFloat]), a [dict] is a finite map.
    Everything outside the process (HTTP, the feed parser's fetch, the Groq
    service, the clock, the log file, the platform's sleep) is an oracle
    answering from the history of events so far; every call leaves an event
    in that history. *)

From Stdlib Require Import ZArith NArith List Lia Bool Ascii String.
From Stdlib Require Import Floats.SpecFloat.
From Stdlib Require Import Sorting.Sorted.
From Stdlib Require DecimalFacts DecimalPos DecimalN.
From stdpp Require Import base option list gmap strings.

Local Open Scope Z_scope.
Local Open Scope list_scope.
#[local] Set Warnings "-register-all".

(* ================================================================== *)
(** * Python strings *)
(* ================================================================== *)

(** A Python [str] is a sequence of code points. *)
Abbreviation str := (list N).

(** Literals of the source file are UTF-8; [utf8] decodes the bytes of a
    Rocq string literal into code points (the source has U+2011 in the
    forecast line and U+2014 in the diagnostic string). *)
Fixpoint utf8_decode (bs : list N) : list N :=
  match bs with
  | [] => []
  | b :: r =>
      if (b <? 128)%N then b :: utf8_decode r
      else if (b <? 224)%N then
        match r with
        | c1 :: r1 =>
            N.lor (N.shiftl (N.land b 31) 6) (N.land c1 63) :: utf8_decode r1
        | _ => []
        end
      else if (b <? 240)%N then
        match r with
        | c1 :: c2 :: r2 =>
            N.lor (N.shiftl (N.land b 15) 12)
              (N.lor (N.shiftl (N.land c1 63) 6) (N.land c2 63))
            :: utf8_decode r2
        | _ => []
        end
      else
        match r with
        | c1 :: c2 :: c3 :: r3 =>
            N.lor (N.shiftl (N.land b 7) 18)
              (N.lor (N.shiftl (N.land c1 63) 12)
                 (N.lor (N.shiftl (N.land c2 63) 6) (N.land c3 63)))
            :: utf8_decode r3
        | _ => []
        end
  end.

Fixpoint bytes_of (s : string) : list N :=
  match s with
  | EmptyString => []
  | String c r => N_of_ascii c :: bytes_of r
  end.

Definition utf8 (s : string) : str := utf8_decode (bytes_of s).

Definition nl : N := 10%N.

(** [sep.join(parts)] *)
Fixpoint join (sep : str) (parts : list str) : str :=
  match parts with
  | [] => []
  | [p] => p
  | p :: rest => p ++ sep ++ join sep rest
  end.

(** [str.isspace] on one code point: the interpreter's whitespace table
    (bidirectional class WS, B or S, or category Zs). *)
Definition isspace (c : N) : bool :=
  ((9 <=? c) && (c <=? 13) || (28 <=? c) && (c <=? 32)
   || (c =? 133) || (c =? 160) || (c =? 5760)
   || (8192 <=? c) && (c <=? 8202)
   || (c =? 8232) || (c =? 8233) || (c =? 8239) || (c =? 8287)
   || (c =? 12288))%N.

(** [s.lstrip()], [s.rstrip()], [s.strip()] *)
Fixpoint lstrip (s : str) : str :=
  match s with
  | c :: r => if isspace c then lstrip r else s
  | [] => []
  end.

Definition rstrip (s : str) : str := rev (lstrip (rev s)).

Definition strip (s : str) : str := rstrip (lstrip s).

(** [s.split()]: maximal runs of non-whitespace, in order.  [cur] is the
    token being read, reversed. *)
Fixpoint split_ws_aux (cur : str) (s : str) : list str :=
  match s with
  | [] => match cur with [] => [] | _ => [rev cur] end
  | c :: r =>
      if isspace c then
        match cur with
        | [] => split_ws_aux [] r
        | _ => rev cur :: split_ws_aux [] r
        end
      else split_ws_aux (c :: cur) r
  end.

Definition split_ws (s : str) : list str := split_ws_aux [] s.



(** Decimal digits of a natural number, as [str(n)] prints them. *)
Fixpoint uint_digits (d : Decimal.uint) : str :=
  match d with
  | Decimal.Nil => []
  | Decimal.D0 r => 48%N :: uint_digits r
  | Decimal.D1 r => 49%N :: uint_digits r
  | Decimal.D2 r => 50%N :: uint_digits r
  | Decimal.D3 r => 51%N :: uint_digits r
  | Decimal.D4 r => 52%N :: uint_digits r
  | Decimal.D5 r => 53%N :: uint_digits r
  | Decimal.D6 r => 54%N :: uint_digits r
  | Decimal.D7 r => 55%N :: uint_digits r
  | Decimal.D8 r => 56%N :: uint_digits r
  | Decimal.D9 r => 57%N :: uint_digits r
  end.

Definition nat_digits (n : N) : str := uint_digits (N.to_uint n).

(** [str(z)] for an [int]. *)
Definition str_of_int (z : Z) : str :=
  match z with
  | Zneg p => 45%N :: nat_digits (Npos p)
  | _ => nat_digits (Z.to_N z)
  end.

(** [n] zero-padded on the left to [w] digits. *)
Definition zero_pad (w : nat) (s : str) : str :=
  repeat 48%N (w - length s) ++ s.

(* ================================================================== *)
(** * Python floats *)
(* ================================================================== *)

(** A Python [float] is an IEEE 754 binary64 value: [SpecFloat] at
    precision 53 and maximal exponent 1024. *)
Definition float := spec_float.

Definition float_div : float -> float -> float := SFdiv 53 1024.
Definition float_mul : float -> float -> float := SFmul 53 1024.

(** The binary64 value nearest to the rational [n / d] (ties to even):
    the correctly rounded quotient of the two integers. *)
Definition float_of_ratio (n d : Z) : float :=
  match n, d with
  | Zpos n', Zpos d' =>
      SFdiv 53 1024 (S754_finite false n' 0) (S754_finite false d' 0)
  | _, _ => S754_zero false
  end.

(** The binary64 value nearest to [D * 10^s], for [D > 0]: what the
    interpreter reads a decimal literal or a JSON number as. *)
Definition float_of_decimal (D s : Z) : float :=
  if 0 <=? s then float_of_ratio (D * 10 ^ s) 1
  else float_of_ratio D (10 ^ (- s)).

(** Truth value of a float in a condition: false exactly for zeros. *)
Definition float_truthy (x : float) : bool :=
  match x with
  | S754_zero _ => false
  | _ => true
  end.

Definition round_half_even (n d : Z) : Z :=
  let q := n / d in
  match (2 * (n mod d) ?= d) with
  | Lt => q
  | Gt => q + 1
  | Eq => if Z.even q then q else q + 1
  end.

Definition sign_str (s : bool) : str := if s then [45%N] else [].

(** [format(x, ".6f")]: the exact binary value rounded half-even to six
    decimals, all integer digits printed. *)
Definition format_6f (x : float) : str :=
  match x with
  | S754_nan => utf8 "nan"
  | S754_infinity s => sign_str s ++ utf8 "inf"
  | S754_zero s => sign_str s ++ utf8 "0.000000"
  | S754_finite s m e =>
      let q :=
        if 0 <=? e then Zpos m * 2 ^ e * 10 ^ 6
        else round_half_even (Zpos m * 10 ^ 6) (2 ^ (- e)) in
      sign_str s ++ nat_digits (Z.to_N (q / 10 ^ 6)) ++ [46%N]
        ++ zero_pad 6 (nat_digits (Z.to_N (q mod 10 ^ 6)))
  end.

(** ** [repr(x)]: the shortest digit string that reads back as [x] *)

Definition ndigits10 (n : Z) : Z := Z.of_nat (length (nat_digits (Z.to_N n))).

(** [floor (log10 (n / d))] for positive [n], [d]. *)
Definition floor_log10 (n d : Z) : Z :=
  let c := ndigits10 n - ndigits10 d in
  if d * 10 ^ (Z.max 0 c) <=? n * 10 ^ (Z.max 0 (- c)) then c else c - 1.

(** [floor (n / d / 10^s)] *)
Definition scaled_floor (n d s : Z) : Z :=
  if 0 <=? s then n / (d * 10 ^ s) else (n * 10 ^ (- s)) / d.

Definition reads_back_as (D s : Z) (m : positive) (e : Z) : bool :=
  match float_of_decimal D s with
  | S754_finite false m' e' => (m' =? m)%positive && (e' =? e)
  | _ => false
  end.

(** Which of the two neighbours [lo * 10^s] and [(lo+1) * 10^s] of
    [n / d] is nearer (half-way goes to the even one). *)
Definition upper_is_nearer (n d lo s : Z) : bool :=
  let c :=
    if 0 <=? s then (2 * n ?= (2 * lo + 1) * 10 ^ s * d)
    else (2 * n * 10 ^ (- s) ?= (2 * lo + 1) * d) in
  match c with
  | Lt => false
  | Gt => true
  | Eq => Z.odd lo
  end.

(** Try [k], [k+1], ... significant digits; the first length at which a
    neighbour reads back as the float wins. The result is the digit
    integer [D] and the scale [s], with value [D * 10^s]. *)
Fixpoint shortest_digits (fuel : nat) (k : Z) (m : positive) (e : Z)
    (n d e10 : Z) : Z * Z :=
  let s := e10 - (k - 1) in
  let lo := scaled_floor n d s in
  match fuel with
  | O => ((if upper_is_nearer n d lo s then lo + 1 else lo), s)
  | S fuel' =>
      let ok_lo := (0 <? lo) && reads_back_as lo s m e in
      let ok_hi := reads_back_as (lo + 1) s m e in
      if ok_lo && ok_hi then
        ((if upper_is_nearer n d lo s then lo + 1 else lo), s)
      else if ok_lo then (lo, s)
      else if ok_hi then (lo + 1, s)
      else shortest_digits fuel' (k + 1) m e n d e10
  end.

Fixpoint strip_zeros (fuel : nat) (D s : Z) : Z * Z :=
  match fuel with
  | O => (D, s)
  | S fuel' =>
      if (D mod 10 =? 0) && (0 <? D) then strip_zeros fuel' (D / 10) (s + 1)
      else (D, s)
  end.

(** The layout rule of [repr]: exponent form when the decimal point
    falls outside [-4 < decpt <= 16], else positional with [.0] added to
    integers. *)
Definition repr_layout (ds : str) (decpt : Z) : str :=
  if (decpt <=? -4) || (16 <? decpt) then
    let ex := decpt - 1 in
    firstn 1 ds
      ++ (match skipn 1 ds with [] => [] | fr => 46%N :: fr end)
      ++ [101%N] ++ (if ex <? 0 then [45%N] else [43%N])
      ++ zero_pad 2 (nat_digits (Z.to_N (Z.abs ex)))
  else if decpt <=? 0 then
    utf8 "0." ++ repeat 48%N (Z.to_nat (- decpt)) ++ ds
  else if Z.of_nat (length ds) <=? decpt then
    ds ++ repeat 48%N (Z.to_nat decpt - length ds) ++ utf8 ".0"
  else
    firstn (Z.to_nat decpt) ds ++ [46%N] ++ skipn (Z.to_nat decpt) ds.

Definition repr_float (x : float) : str :=
  match x with
  | S754_nan => utf8 "nan"
  | S754_infinity s => sign_str s ++ utf8 "inf"
  | S754_zero s => sign_str s ++ utf8 "0.0"
  | S754_finite s m e =>
      let n := if 0 <=? e then Zpos m * 2 ^ e else Zpos m in
      let d := if 0 <=? e then 1 else 2 ^ (- e) in
      let '(D0, s0) := shortest_digits 16 1 m e n d (floor_log10 n d) in
      let '(D, s1) := strip_zeros 20 D0 s0 in
      let ds := nat_digits (Z.to_N D) in
      sign_str s ++ repr_layout ds (Z.of_nat (length ds) + s1)
  end.

(** [float(z)] for an [int]: nearest binary64, or none when it
    overflows (the interpreter raises [OverflowError]). *)
Definition float_of_int (z : Z) : option float :=
  match binary_normalize 53 1024 z 0 false with
  | S754_infinity _ => None
  | f => Some f
  end.

(** [int(x)] for a finite float: truncation toward zero. *)
Definition trunc_float (x : float) : option Z :=
  match x with
  | S754_zero _ => Some 0
  | S754_finite s m e =>
      let a := if 0 <=? e then Zpos m * 2 ^ e else Zpos m / 2 ^ (- e) in
      Some (if s then - a else a)
  | _ => None
  end.

(* ================================================================== *)
(** * Exceptions, JSON values, dictionaries *)
(* ================================================================== *)

(** The exception classes that can reach this code; all of them derive
    from [Exception].  [ValueError] carries its message when the source
    itself builds it, and [None] when the interpreter raises it. *)
Inductive exn : Type :=
  | ValueError (msg : option str)
  | KeyError
  | IndexError
  | TypeError
  | AttributeError
  | OverflowError
  | RequestError      (* requests.get(...) or .json() failed *)
  | FeedError         (* feedparser.parse(...) raised *)
  | GroqError         (* the Groq client raised *)
  | OSError.          (* open(...), the write of the log file or the
                         platform's sleep failed *)

Inductive result (A : Type) : Type :=
  | Ok (a : A)
  | Raise (e : exn).
Arguments Ok {A} a.
Arguments Raise {A} e.

Definition is_ok {A} (r : result A) : bool :=
  match r with Ok _ => true | Raise _ => false end.

(** What [response.json()] returns. An object is kept as its list of
    members, keys distinct, in document order. *)
Inductive json : Type :=
  | JNull
  | JBool (b : bool)
  | JInt (z : Z)
  | JFloat (x : float)
  | JStr (s : str)
  | JArr (items : list json)
  | JObj (members : list (str * json)).

Definition str_eqb (a b : str) : bool := bool_decide (a = b).

Fixpoint assoc {A} (k : str) (l : list (str * A)) : option A :=
  match l with
  | [] => None
  | (k', v) :: r => if str_eqb k k' then Some v else assoc k r
  end.

(** [v[key]] with a string key. *)
Definition getitem_key (v : json) (key : str) : result json :=
  match v with
  | JObj ms => match assoc key ms with Some x => Ok x | None => Raise KeyError end
  | _ => Raise TypeError
  end.

(** [v[i]] with a non-negative integer index. *)
Definition getitem_idx (v : json) (i : nat) : result json :=
  match v with
  | JArr l => match nth_error l i with Some x => Ok x | None => Raise IndexError end
  | JStr s => match nth_error s i with Some c => Ok (JStr [c]) | None => Raise IndexError end
  | JObj _ => Raise KeyError
  | _ => Raise TypeError
  end.

(** [for p in v] *)
Definition iterate (v : json) : result (list json) :=
  match v with
  | JArr l => Ok l
  | JStr s => Ok (map (fun c => JStr [c]) s)
  | JObj ms => Ok (map (fun kv => JStr (fst kv)) ms)
  | _ => Raise TypeError
  end.

(** [v.get(key, [])] *)
Definition dict_get_or_empty (v : json) (key : str) : result json :=
  match v with
  | JObj ms => Ok (match assoc key ms with Some x => x | None => JArr [] end)
  | _ => Raise AttributeError
  end.

(** Values stored in a snapshot, and the snapshot as the [dict] it is. *)
Inductive value : Type :=
  | VNone
  | VStr (s : str)
  | VInt (z : Z)
  | VFloat (x : float)
  | VStrs (l : list str).

Abbreviation dict := (gmap string value).

(** An entry of a parsed feed: [e.title] exists or not. *)
Record entry : Type := { title : option str }.

(* ================================================================== *)
(** * The world outside the process *)
(* ================================================================== *)

(** Every effect of the program leaves one event, in program order. *)
Inductive event : Type :=
  | HttpGet (url : str)                    (* requests.get(url, timeout=...) *)
  | FeedParse (url : str)                  (* feedparser.parse(url) *)
  | GroqChat (api_key model prompt : str)  (* client.chat.completions.create *)
  | UtcNow                                 (* datetime.utcnow() *)
  | WriteFile (path : str) (content : list dict)  (* open(path, "w") + json.dump *)
  | PrintBot (e : exn)                     (* print("[bot]", exc) *)
  | PrintSaveError (e : exn)               (* print("[bot] Error saving log:", e) *)
  | Sleep (secs : Z)                       (* time.sleep(secs) *)
  | Acquire                                (* lock.__enter__ *)
  | Release.                               (* lock.__exit__ *)

(** The history is kept newest first. *)
Abbreviation history := (list event).

(** How the world answers, given everything that happened before. *)
Record World : Type := {
  http_json : history -> str -> result json;
  feed_entries : history -> str -> result (list entry);
  groq_choices : history -> str -> str -> str -> result (list (option str));
  utcnow_isoformat : history -> str;
  write_file : history -> str -> list dict -> result unit;
  sleep_for : history -> Z -> result unit;
}.

Definition is_network (ev : event) : bool :=
  match ev with
  | HttpGet _ | FeedParse _ | GroqChat _ _ _ => true
  | _ => false
  end.

(** ** The monad of module-level functions: effects on the history, and
       exceptions *)

Definition IO (A : Type) : Type := history -> result A * history.

Definition ret {A} (a : A) : IO A := fun h => (Ok a, h).
Definition raise {A} (e : exn) : IO A := fun h => (Raise e, h).
Definition bind {A B} (m : IO A) (k : A -> IO B) : IO B :=
  fun h =>
    match m h with
    | (Ok a, h') => k a h'
    | (Raise e, h') => (Raise e, h')
    end.
Definition lift {A} (r : result A) : IO A := fun h => (r, h).

(** [try: m  except Exception: handler] *)
Definition try_except {A} (m : IO A) (handler : exn -> IO A) : IO A :=
  fun h =>
    match m h with
    | (Ok a, h') => (Ok a, h')
    | (Raise e, h') => handler e h'
    end.

Declare Scope io_scope.
Delimit Scope io_scope with io.
Notation "x <- m ;; k" := (bind m (fun x => k))
  (at level 100, m at next level, right associativity) : io_scope.

Fixpoint mapM {A B} (f : A -> IO B) (l : list A) : IO (list B) :=
  match l with
  | [] => ret []
  | a :: r => (b <- f a ;; bs <- mapM f r ;; ret (b :: bs))%io
  end.

(** One call to the outside: ask the world, record the event. *)
Definition call {A} (ev : event) (answer : history -> result A) : IO A :=
  fun h => (answer h, ev :: h).

(* ================================================================== *)
(** * Config and constants (lines 40-51) *)
(* ================================================================== *)

Definition COINDESK_RSS : str := utf8 "https://feeds.feedburner.com/CoinDesk".
Definition COINGECKO_LIST_URL : str :=
  utf8 "https://api.coingecko.com/api/v3/coins/list".

Definition COINGECKO_PRICE_URL : str :=
  utf8 "https://api.coingecko.com/api/v3/simple/price".

(** [COINGECKO_CHART_URL.format(id=..., vs=..., days=...)] *)
Definition COINGECKO_CHART_URL (id vs days : str) : str :=
  utf8 "https://api.coingecko.com/api/v3/coins/" ++ id
    ++ utf8 "/market_chart?vs_currency=" ++ vs
    ++ utf8 "&days=" ++ days ++ utf8 "&interval=hourly".

(** [COINCODEx_PRED_URL.format(sym=...)] *)
Definition COINCODEx_PRED_URL (sym : str) : str :=
  utf8 "https://coincodex.com/api/coindata/" ++ sym.

Definition GROQ_PLACEHOLDER : str := utf8 "YOUR_GROQ_API_KEY_HERE".

(** [os.getenv("GROQ_API_KEY") or "YOUR_GROQ_API_KEY_HERE"] *)
Definition GROQ_API_KEY_of (getenv : option str) : str :=
  match getenv with
  | Some (c :: k) => c :: k
  | _ => GROQ_PLACEHOLDER
  end.

(** [str(x)] for an optional string: [None] prints as ["None"]. *)
Definition format_opt_str (o : option str) : str :=
  match o with
  | Some s => s
  | None => utf8 "None"
  end.

(** [l[-n:]] for [n > 0] *)
Definition last_n {A} (n : nat) (l : list A) : list A :=
  skipn (length l - n) l.

(** [l[:limit]] for any integer [limit]: a negative limit counts from
    the end. *)
Definition slice_to {A} (limit : Z) (l : list A) : list A :=
  if 0 <=? limit then firstn (Z.to_nat limit) l
  else firstn (length l - Z.to_nat (- limit)) l.

(* ================================================================== *)
(** * Test doubles *)
(* ================================================================== *)

(** Concrete stand-ins for the interpreter and the outside world, used by
    the closed examples at the end of the file. *)
Module Mock.

(** Case mapping restricted to ASCII letters: all the examples need. *)
Definition upper (s : str) : str :=
  map (fun c => if ((97 <=? c) && (c <=? 122))%N then (c - 32)%N else c) s.
Definition lower (s : str) : str :=
  map (fun c => if ((65 <=? c) && (c <=? 90))%N then (c + 32)%N else c) s.

Definition float_of_str (_ : str) : option float := None.
Definition int_of_str (_ : str) : option Z := None.

(** A symbol listing with the single coin XRP. *)
Definition SYMBOL_MAP : gmap str str := {[ utf8 "XRP" := utf8 "ripple" ]}.

Definition price_url : str :=
  COINGECKO_PRICE_URL ++ utf8 "?ids=ripple&vs_currencies=usd".
Definition chart_url : str :=
  COINGECKO_CHART_URL (utf8 "ripple") (utf8 "usd") (utf8 "1").
Definition forecast_url : str := COINCODEx_PRED_URL (utf8 "xrp").

Definition price_body : json :=
  JObj [(utf8 "ripple", JObj [(utf8 "usd", JFloat (float_of_decimal 523 (-3)))])].
Definition chart_body : json :=
  JObj [(utf8 "prices",
         JArr [JArr [JInt 1000; JFloat (float_of_decimal 50 (-2))];
               JArr [JInt 2000; JFloat (float_of_decimal 51 (-2))];
               JArr [JInt 3000; JFloat (float_of_decimal 52 (-2))]])].
Definition forecast_body : json :=
  JObj [(utf8 "predictions",
         JObj [(utf8 "price_prediction_7d", JFloat (float_of_decimal 55 (-2)))])].

Definition headlines : list entry :=
  [{| title := Some (utf8 "A") |}; {| title := Some (utf8 "B") |}].

(** The monotonic clock of the examples, in nanoseconds: the platform
    refuses a sleep whose deadline, clock plus timeout, leaves 64 bits
    (Linux: [clock_nanosleep] with an absolute deadline, EINVAL). *)
Definition MONOTONIC_NS : Z := 20000 * 10 ^ 9.

(** A world that answers the same way whatever happened before. *)
Definition fixed_world (routes : list (str * json))
    (feed : result (list entry)) (groq : result (list (option str)))
    (disk : result unit) : World :=
  {| http_json := fun _ url =>
       match assoc url routes with Some j => Ok j | None => Raise RequestError end;
     feed_entries := fun _ _ => feed;
     groq_choices := fun _ _ _ _ => groq;
     utcnow_isoformat := fun _ => utf8 "2025-01-01T00:00:00";
     write_file := fun _ _ _ => disk;
     sleep_for := fun _ secs =>
       if 2 ^ 63 <=? MONOTONIC_NS + secs * 10 ^ 9 then Raise OSError
       else Ok tt |}.

Definition all_routes : list (str * json) :=
  [(price_url, price_body); (chart_url, chart_body); (forecast_url, forecast_body)].

(** Every provider up, the disk writable. *)
Definition healthy : World :=
  fixed_world all_routes (Ok headlines) (Ok [Some (utf8 " buy now ")]) (Ok tt).

(** The forecast provider is down. *)
Definition no_forecast : World :=
  fixed_world [(price_url, price_body); (chart_url, chart_body)]
    (Ok headlines) (Ok [Some (utf8 "hold")]) (Ok tt).



(** CoinGecko answers an unknown coin id with an error object. *)
Definition coin_not_found : World :=
  fixed_world
    [(COINGECKO_CHART_URL (utf8 "None") (utf8 "usd") (utf8 "1"),
      JObj [(utf8 "error", JStr (utf8 "coin not found"))])]
    (Ok headlines) (Ok [Some (utf8 "HOLD")]) (Ok tt).

(** The Groq service answers with blanks only. *)
Definition blank_reply : World :=
  fixed_world all_routes (Ok headlines) (Ok [Some [32%N; 10%N; 9%N]]) (Ok tt).

(** The listing endpoint answers three coins, two of them under the
    ticker XRP in different letter case. *)
Definition listing_body : json :=
  JArr [JObj [(utf8 "id", JStr (utf8 "ripple")); (utf8 "symbol", JStr (utf8 "xrp"));
              (utf8 "name", JStr (utf8 "XRP"))];
        JObj [(utf8 "id", JStr (utf8 "bitcoin")); (utf8 "symbol", JStr (utf8 "btc"));
              (utf8 "name", JStr (utf8 "Bitcoin"))];
        JObj [(utf8 "id", JStr (utf8 "xrp-classic")); (utf8 "symbol", JStr (utf8 "Xrp"));
              (utf8 "name", JStr (utf8 "XRP Classic"))]].
Definition listing : World :=
  fixed_world [(COINGECKO_LIST_URL, listing_body)]
    (Ok headlines) (Ok [Some (utf8 "HOLD")]) (Ok tt).

End Mock.

Section Program.

(** The interpreter's [str.upper], [str.lower], [float(str)] and
    [int(str)]: taken as they are. *)
Variable upper lower : str -> str.
Variable float_of_str : str -> option float.
Variable int_of_str : str -> option Z.

(** [SYMBOL_MAP], built once at import time (line 62), and the
    environment variable read at line 48. *)
Variable SYMBOL_MAP : gmap str str.
Variable getenv_GROQ_API_KEY : option str.

Variable world : World.

Definition GROQ_API_KEY : str := GROQ_API_KEY_of getenv_GROQ_API_KEY.

(** [float(v)] and [int(v)] on a JSON value *)
Definition py_float (v : json) : result float :=
  match v with
  | JFloat x => Ok x
  | JInt z => match float_of_int z with Some x => Ok x | None => Raise OverflowError end
  | JBool b => Ok (if b then float_of_decimal 1 0 else S754_zero false)
  | JStr s => match float_of_str s with Some x => Ok x | None => Raise (ValueError None) end
  | _ => Raise TypeError
  end.

Definition py_int (v : json) : result Z :=
  match v with
  | JInt z => Ok z
  | JFloat (S754_infinity _) => Raise OverflowError
  | JFloat x => match trunc_float x with Some z => Ok z | None => Raise (ValueError None) end
  | JBool b => Ok (if b then 1 else 0)
  | JStr s => match int_of_str s with Some z => Ok z | None => Raise (ValueError None) end
  | _ => Raise TypeError
  end.

(** [requests.get(url, timeout=...).json()] *)
Definition requests_get_json (url : str) : IO json :=
  call (HttpGet url) (fun h => http_json world h url).

(** ** CoinGecko helpers (lines 65-90) *)

Definition get_price (sym vs : str) : IO float :=
  (match SYMBOL_MAP !! upper sym with
   | Some (c :: cid') =>
       let cid := c :: cid' in
       let url := COINGECKO_PRICE_URL ++ utf8 "?ids=" ++ cid
                    ++ utf8 "&vs_currencies=" ++ lower vs in
       j <- requests_get_json url ;;
       a <- lift (getitem_key j cid) ;;
       b <- lift (getitem_key a (lower vs)) ;;
       lift (py_float b)
   | _ => raise (ValueError (Some (utf8 "Unknown symbol " ++ sym)))
   end)%io.

(** [(int(p[0]), float(p[1]))] *)
Definition read_point (p : json) : IO (Z * float) :=
  (t0 <- lift (getitem_idx p 0) ;;
   t <- lift (py_int t0) ;;
   x0 <- lift (getitem_idx p 1) ;;
   x <- lift (py_float x0) ;;
   ret (t, x))%io.

Definition get_history (sym vs : str) (days : Z) : IO (list (Z * float)) :=
  (let cid := SYMBOL_MAP !! upper sym in
   let url := COINGECKO_CHART_URL (format_opt_str cid) (lower vs) (str_of_int days) in
   data <- requests_get_json url ;;
   prices <- lift (dict_get_or_empty data (utf8 "prices")) ;;
   ps <- lift (iterate prices) ;;
   mapM read_point ps)%io.

Definition get_prediction (sym vs : str) : IO (option float) :=
  try_except
    (j <- requests_get_json (COINCODEx_PRED_URL (lower sym)) ;;
     a <- lift (getitem_key j (utf8 "predictions")) ;;
     b <- lift (getitem_key a (utf8 "price_prediction_7d")) ;;
     pred_usd <- lift (py_float b) ;;
     if str_eqb (upper vs) (utf8 "USD") then ret (Some pred_usd)
     else
       cur_vs <- get_price sym vs ;;
       cur_usd <- get_price sym (utf8 "USD") ;;
       ret (if float_truthy cur_usd
            then Some (float_mul (float_div pred_usd cur_usd) cur_vs)
            else None))%io
    (fun _ => ret None).

(** ** News helper (lines 272-273) *)

(** [e.title]: an entry without title raises [AttributeError]. *)
Definition read_title (e : entry) : IO str :=
  match title e with
  | Some t => ret t
  | None => raise AttributeError
  end.

Definition latest_news (limit : Z) : IO (list str) :=
  (es <- call (FeedParse COINDESK_RSS)
           (fun h => feed_entries world h COINDESK_RSS) ;;
   mapM read_title (slice_to limit es))%io.

(** ** Groq: build prompt and get decision (lines 96-118) *)

Definition INSTRUCTION : str :=
  utf8 "Respond with BUY, SELL, or HOLD (one word).".

Definition build_prompt (news : list str) (price : float)
    (prediction : option float) (recent : list float) (coin vs : str) : str :=
  let pred_text :=
    match prediction with
    | Some p => format_6f p
    | None => utf8 "N/A"
    end in
  let recent_line := join (utf8 ", ") (map format_6f recent) in
  (utf8 "News Headlines:" ++ [nl])
    ++ join [nl] (map (fun h => utf8 "- " ++ h) news)
    ++ ([nl; nl]
          ++ (utf8 "Current Price " ++ coin ++ utf8 "/" ++ vs ++ utf8 ": "
                ++ repr_float price ++ [nl])
          ++ (utf8 "7‑day Forecast: " ++ pred_text ++ [nl])
          ++ (utf8 "Recent Hourly Prices: " ++ recent_line ++ [nl; nl])
          ++ INSTRUCTION).

Definition MODEL : str := utf8 "allam-2-7b".
Definition KEY_MISSING : str := utf8 "Groq key missing — default HOLD".

Definition key_missing (k : str) : bool :=
  match k with [] => true | _ => str_eqb k GROQ_PLACEHOLDER end.

Definition groq_decision (news : list str) (price : float)
    (prediction : option float) (recent : list float) (coin vs : str)
    : IO (str * str * str) :=
  (let prompt := build_prompt news price prediction recent coin vs in
   if key_missing GROQ_API_KEY then
     ret (utf8 "HOLD", prompt, KEY_MISSING)
   else
     choices <- call (GroqChat GROQ_API_KEY MODEL prompt)
                  (fun h => groq_choices world h GROQ_API_KEY MODEL prompt) ;;
     content <- lift (match choices with
                      | c :: _ => Ok c
                      | [] => Raise IndexError
                      end) ;;
     ai_raw <- lift (match content with
                     | Some s => Ok (strip s)
                     | None => Raise AttributeError
                     end) ;;
     first <- lift (match split_ws ai_raw with
                    | t :: _ => Ok t
                    | [] => Raise IndexError
                    end) ;;
     ret (upper first, prompt, ai_raw))%io.

(* ================================================================ *)
(** ** Background bot (lines 126-183) *)
(* ================================================================ *)

(** The attributes of a [TradingBot]. The lock itself shows only as
    [Acquire] / [Release] events. *)
Record Bot : Type := {
  coin : str;
  vs : str;
  interval : Z;
  _snap : dict;
  log : list dict;
  log_file : str;
}.

(** [__init__] (lines 127-134) *)
Definition init (coin0 vs0 : str) (interval0 : Z) (log_file0 : str) : Bot :=
  {| coin := upper coin0; vs := upper vs0; interval := interval0;
     _snap := ∅; log := []; log_file := log_file0 |}.

(** [save_log] (lines 136-142): any failure of the write is printed
    and swallowed here. *)
Definition save_log (b : Bot) (h : history) : history :=
  let ev := WriteFile (log_file b) (log b) in
  match write_file world h (log_file b) (log b) with
  | Ok _ => ev :: h
  | Raise e => PrintSaveError e :: ev :: h
  end.

(** The values a cycle has gathered when it reaches line 154. *)
Record Gathered : Type := {
  g_price : float;
  g_pred : option float;
  g_decision : str;
  g_prompt : str;
  g_ai_raw : str;
  g_news : list str;
}.

Definition opt_float (o : option float) : value :=
  match o with Some x => VFloat x | None => VNone end.

(** The dict literal of lines 155-166. *)
Definition make_snapshot (time : str) (b : Bot) (g : Gathered) : dict :=
  <["time" := VStr (time ++ utf8 "Z")]>
  (<["coin" := VStr (coin b)]>
  (<["vs" := VStr (vs b)]>
  (<["price" := VFloat (g_price g)]>
  (<["prediction" := opt_float (g_pred g)]>
  (<["decision" := VStr (g_decision g)]>
  (<["prompt" := VStr (g_prompt g)]>
  (<["ai_raw" := VStr (g_ai_raw g)]>
  (<["interval" := VInt (interval b)]>
  (<["news" := VStrs (g_news g)]> ∅))))))))).

(** Lines 154-170: under the lock, replace the snapshot, append a copy
    to the log, save the log. *)
Definition publish (g : Gathered) (b : Bot) (h : history) : Bot * history :=
  let h1 := Acquire :: h in
  let time := utcnow_isoformat world h1 in
  let h2 := UtcNow :: h1 in
  let snap := make_snapshot time b g in
  let b' := {| coin := coin b; vs := vs b; interval := interval b;
               _snap := snap; log := log b ++ [snap];
               log_file := log_file b |} in
  (b', Release :: save_log b' h2).

(** [snapshot] (lines 176-178) *)
Definition snapshot (b : Bot) (h : history) : dict * history :=
  (_snap b, Release :: Acquire :: h).

(** [configure] (lines 180-183) *)
Definition configure (coin1 vs1 : str) (interval1 : Z) (b : Bot) (h : history)
    : Bot * history :=
  ({| coin := upper coin1; vs := upper vs1; interval := Z.max 5 interval1;
      _snap := <["status" := VStr (utf8 "reconfigured")]> (_snap b);
      log := log b; log_file := log_file b |},
   Release :: Acquire :: h).

(** [api_log] (lines 289-292) *)
Definition api_log (b : Bot) (h : history) : list dict * history :=
  (log b, Release :: Acquire :: h).

(** [api_history] (lines 294-299): the fetch runs inside the [with]
    block; the lock is released whether or not it raises. *)
Definition api_history (b : Bot) (h : history)
    : result (list (Z * float)) * history :=
  let '(r, h') := get_history (coin b) (vs b) 1 (Acquire :: h) in
  (r, Release :: h').

(** *** The worker, one statement at a time

    The program counter names the line of [run] about to execute and
    carries the locals bound so far. *)
Inductive pc : Type :=
  | L147
  | L148 (price : float)
  | L149 (price : float) (hist : list (Z * float))
  | L150 (price : float) (hist : list (Z * float)) (news : list str)
  | L151 (price : float) (hist : list (Z * float)) (news : list str)
      (pred : option float)
  | L154 (g : Gathered)
  | L172 (exc : exn)
  | L173
  | Ended (exc : exn).   (* [exc] left [run]: the thread is over *)

(** A statement of the [try] body: on an exception control goes to the
    handler at line 172. *)
Definition attempt {A} (m : IO A) (next : A -> pc) (h : history) : pc * history :=
  match m h with
  | (Ok a, h') => (next a, h')
  | (Raise e, h') => (L172 e, h')
  end.

(** [time.sleep(secs)] for an integer [secs] that is not negative.
    The interpreter first converts the argument to nanoseconds in a
    signed 64-bit integer and raises [OverflowError] when that does
    not fit, whatever the platform; otherwise the platform sleeps, or
    refuses with [OSError]. *)
Definition time_sleep (secs : Z) : IO unit :=
  call (Sleep secs)
    (fun h => if 2 ^ 63 <=? secs * 10 ^ 9 then Raise OverflowError
              else sleep_for world h secs).

(** Line 173 is outside the [try]: when the sleep returns the loop
    goes back to line 147, and an exception of the sleep ends [run]. *)
Definition resume (r : result unit) : pc :=
  match r with Ok _ => L147 | Raise e => Ended e end.

Record Sys : Type := {
  bot : Bot;
  at_pc : pc;
  hist : history;
  cycles_ok : nat;   (* ghost: iterations whose [try] body ran to its end *)
}.

Definition worker_step (s : Sys) : Sys :=
  let b := bot s in
  let h := hist s in
  let goto p h' := {| bot := b; at_pc := p; hist := h'; cycles_ok := cycles_ok s |} in
  match at_pc s with
  | L147 =>
      let '(p, h') := attempt (get_price (coin b) (vs b)) L148 h in goto p h'
  | L148 price =>
      let '(p, h') :=
        attempt (get_history (coin b) (vs b) 1)
          (fun hs => L149 price (last_n 6 hs)) h in
      goto p h'
  | L149 price hs =>
      let '(p, h') := attempt (latest_news 5) (L150 price hs) h in goto p h'
  | L150 price hs news =>
      let '(p, h') :=
        attempt (get_prediction (coin b) (vs b)) (L151 price hs news) h in
      goto p h'
  | L151 price hs news pred =>
      let recent_vals := map snd hs in
      let '(p, h') :=
        attempt (groq_decision news price pred recent_vals (coin b) (vs b))
          (fun r =>
             let '(decision, prompt, ai_raw) := r in
             L154 {| g_price := price; g_pred := pred; g_decision := decision;
                     g_prompt := prompt; g_ai_raw := ai_raw; g_news := news |})
          h in
      goto p h'
  | L154 g =>
      let '(b', h') := publish g b h in
      {| bot := b'; at_pc := L173; hist := h'; cycles_ok := S (cycles_ok s) |}
  | L172 exc => goto L173 (PrintBot exc :: h)
  | L173 =>
      let '(r, h') := time_sleep (Z.max 5 (interval b)) h in
      goto (resume r) h'
  | Ended _ => s
  end.

(** What can happen next: the worker runs its next statement, or a
    request handler runs one of the bot's entry points. *)
Inductive action : Type :=
  | Worker
  | CallConfigure (coin1 vs1 : str) (interval1 : Z)
  | CallSnapshot
  | CallApiLog
  | CallApiHistory.

Definition step (a : action) (s : Sys) : Sys :=
  match a with
  | Worker => worker_step s
  | CallConfigure c v i =>
      let '(b', h') := configure c v i (bot s) (hist s) in
      {| bot := b'; at_pc := at_pc s; hist := h'; cycles_ok := cycles_ok s |}
  | CallSnapshot =>
      {| bot := bot s; at_pc := at_pc s;
         hist := snd (snapshot (bot s) (hist s)); cycles_ok := cycles_ok s |}
  | CallApiLog =>
      {| bot := bot s; at_pc := at_pc s;
         hist := snd (api_log (bot s) (hist s)); cycles_ok := cycles_ok s |}
  | CallApiHistory =>
      {| bot := bot s; at_pc := at_pc s;
         hist := snd (api_history (bot s) (hist s)); cycles_ok := cycles_ok s |}
  end.

Definition exec (acts : list action) (s : Sys) : Sys :=
  fold_left (fun s a => step a s) acts s.

(** The thread as [__init__] starts it. *)
Definition start (coin0 vs0 : str) (interval0 : Z) (log_file0 : str) : Sys :=
  {| bot := init coin0 vs0 interval0 log_file0; at_pc := L147;
     hist := []; cycles_ok := 0 |}.

(** One iteration of [while True] with nothing interleaved: from line
    147, statements run until the [sleep] of line 173 has returned or
    raised. *)
Fixpoint run_until_slept (fuel : nat) (s : Sys) : Sys :=
  match fuel with
  | O => s
  | S fuel' =>
      match at_pc s with
      | L173 => worker_step s
      | _ => run_until_slept fuel' (worker_step s)
      end
  end.

Definition run_cycle (s : Sys) : Sys := run_until_slept 8 s.

(** The [try] body up to line 153 as one computation: the fetches and
    the decision, reading the configuration of [b]. *)
Definition gather (b : Bot) : IO Gathered :=
  (price <- get_price (coin b) (vs b) ;;
   hs <- get_history (coin b) (vs b) 1 ;;
   news <- latest_news 5 ;;
   pred <- get_prediction (coin b) (vs b) ;;
   r <- groq_decision news price pred (map snd (last_n 6 hs)) (coin b) (vs b) ;;
   let '(decision, prompt, ai_raw) := r in
   ret {| g_price := price; g_pred := pred; g_decision := decision;
          g_prompt := prompt; g_ai_raw := ai_raw; g_news := news |})%io.

(** *** Reading a history for the lock discipline

    Events oldest first: [held_after] tells whether the lock is held
    at the end, [net_under_lock] whether some network call was made
    while it was held. *)
Fixpoint held_after (held : bool) (evs : list event) : bool :=
  match evs with
  | [] => held
  | Acquire :: r => held_after true r
  | Release :: r => held_after false r
  | _ :: r => held_after held r
  end.

Fixpoint net_under_lock (held : bool) (evs : list event) : bool :=
  match evs with
  | [] => false
  | Acquire :: r => net_under_lock true r
  | Release :: r => net_under_lock false r
  | ev :: r => (held && is_network ev) || net_under_lock held r
  end.

Definition fetches_while_locked (h : history) : bool :=
  net_under_lock false (rev h).

(* ================================================================ *)
(** * Vocabulary of the properties *)
(* ================================================================ *)

Definition blank (s : str) : Prop := Forall (fun c => isspace c = true) s.





Definition recent_line (recent : list float) : str :=
  utf8 "Recent Hourly Prices: " ++ join (utf8 ", ") (map format_6f recent).


(** [adds P m]: running [m] only prepends events satisfying [P]. *)
Definition adds {A} (P : event -> Prop) (m : IO A) : Prop :=
  forall h, exists new, snd (m h) = new ++ h /\ Forall P new.

Definition network (ev : event) : Prop := is_network ev = true.


Definition titled (t : str) : entry := {| title := Some t |}.


Definition local_io (ev : event) : Prop :=
  match ev with
  | WriteFile _ _ | PrintSaveError _ => True
  | _ => False
  end.

(** What one statement of [run] adds to the history: the calls of a
    fetch, the locked section of the publish, the handler's print, or
    the sleep. *)
Inductive statement_events (s : Sys) : list event -> Prop :=
  | fetch_events new :
      Forall network new -> statement_events s new
  | publish_events mid :
      Forall local_io mid ->
      statement_events s (Release :: mid ++ [UtcNow; Acquire])
  | handler_events e : statement_events s [PrintBot e]
  | sleep_events : statement_events s [Sleep (Z.max 5 (interval (bot s)))].


(** The thread once line 173 has run with attributes [b] after history
    [h]: the sleep was called with [max(5, self.interval)], and the
    loop is back at its head or the thread is over. *)
Definition after_sleep (b : Bot) (h : history) (n : nat) : Sys :=
  {| bot := b;
     at_pc := resume (fst (time_sleep (Z.max 5 (interval b)) h));
     hist := Sleep (Z.max 5 (interval b)) :: h;
     cycles_ok := n |}.

Definition STATUS_MARK : value := VStr (utf8 "reconfigured").

(** The log's last element, or the empty dict while the log is empty. *)
Definition last_logged (b : Bot) : dict := default ∅ (last (log b)).

Definition is_configure (a : action) : bool :=
  match a with CallConfigure _ _ _ => true | _ => false end.

(** The invariant the code keeps: the log has one entry per completed
    [try] body, and the current snapshot is the last entry, possibly
    marked by [configure]. *)
Definition snapshot_invariant (s : Sys) : Prop :=
  length (log (bot s)) = cycles_ok s
  /\ (_snap (bot s) = last_logged (bot s)
      \/ _snap (bot s) = <["status" := STATUS_MARK]> (last_logged (bot s))).

(** Is this the failure of line 68 (a [ValueError] built by the source)? *)
Definition is_unknown_symbol {A} (r : result A) : bool :=
  match r with
  | Raise (ValueError (Some _)) => true
  | _ => false
  end.

(** A stretch of history that starts and ends with the lock free and
    has no network call inside a locked section. *)
Definition disciplined (new : list event) : Prop :=
  net_under_lock false (rev new) = false
  /\ held_after false (rev new) = false.

Definition is_api_history (a : action) : bool :=
  match a with CallApiHistory => true | _ => false end.

(* ================================================================ *)
(** * The symbol map (lines 57-62) *)
(* ================================================================ *)

(** [c["symbol"].upper(): c["id"]] for one element of the listing: the
    key is evaluated before the value; [.upper()] exists on strings
    only. *)
Definition symbol_entry (c : json) : IO (str * json) :=
  (sym <- lift (getitem_key c (utf8 "symbol")) ;;
   key <- lift (match sym with
                | JStr s => Ok (upper s)
                | _ => Raise AttributeError
                end) ;;
   id <- lift (getitem_key c (utf8 "id")) ;;
   ret (key, id))%io.

(** A dict comprehension inserts in iteration order: a later pair with
    the same key replaces the earlier one. *)
Definition dict_of_pairs {A} (kvs : list (str * A)) : gmap str A :=
  fold_left (fun m kv => <[fst kv := snd kv]> m) kvs ∅.

(** [_symbol_map()] *)
Definition _symbol_map : IO (gmap str json) :=
  (data <- requests_get_json COINGECKO_LIST_URL ;;
   cs <- lift (iterate data) ;;
   kvs <- mapM symbol_entry cs ;;
   ret (dict_of_pairs kvs))%io.

(* ================================================================ *)
(** * Vocabulary of the further properties *)
(* ================================================================ *)

(** An element of the listing that carries a string symbol and an id. *)
Definition listed (c : json) (p : str * json) : Prop :=
  exists ms, c = JObj ms
             /\ assoc (utf8 "symbol") ms = Some (JStr (fst p))
             /\ assoc (utf8 "id") ms = Some (snd p).

(** A point of the market chart as CoinGecko sends it: [[t, x]]. *)
Definition chart_point (p : Z * float) : json :=
  JArr [JInt (fst p); JFloat (snd p)].

(** [calls n m]: running [m] makes at most [n] calls to the network
    and leaves no other event. *)
Definition calls {A} (n : nat) (m : IO A) : Prop :=
  forall h, exists new,
      snd (m h) = new ++ h /\ Forall network new /\ (length new <= n)%nat.

(** How many of these events are calls to the network. *)
Definition network_calls (evs : list event) : nat :=
  length (List.filter is_network evs).

(** The network calls among these events, oldest first. *)
Definition requests_of (evs : list event) : list event :=
  rev (List.filter is_network evs).

(** The GET of [get_price] for a coin id and a quote. *)
Definition price_request (cid quote : str) : event :=
  HttpGet (COINGECKO_PRICE_URL ++ utf8 "?ids=" ++ cid
             ++ utf8 "&vs_currencies=" ++ quote).

(** Every call to the network an iteration of [run] can make for the
    attributes [b], in program order: price, chart, headlines,
    forecast, for a quote other than USD the two prices of the
    conversion, and the chat that carries [prompt] unless the key is
    missing. *)
Definition cycle_requests (b : Bot) (prompt : str) : list event :=
  let cid := default [] (SYMBOL_MAP !! upper (coin b)) in
  [price_request cid (lower (vs b));
   HttpGet (COINGECKO_CHART_URL (format_opt_str (SYMBOL_MAP !! upper (coin b)))
              (lower (vs b)) (str_of_int 1));
   FeedParse COINDESK_RSS;
   HttpGet (COINCODEx_PRED_URL (lower (coin b)))]
  ++ (if str_eqb (upper (vs b)) (utf8 "USD") then []
      else [price_request cid (lower (vs b));
            price_request cid (lower (utf8 "USD"))])
  ++ (if key_missing GROQ_API_KEY then []
      else [GroqChat GROQ_API_KEY MODEL prompt]).

(** [requests E m]: running [m] leaves only calls to the network, and
    in program order they are picked, in order, from [E prompt] for
    some prompt. *)
Definition requests {A} (E : str -> list event) (m : IO A) : Prop :=
  forall h, exists new prompt,
      snd (m h) = new ++ h /\ Forall network new
      /\ rev new `sublist_of` E prompt.

(** The snapshots published along a run, oldest first: for each
    statement of line 154 the worker runs, the dict literal of lines
    155-166 on the attributes and the gathered values of that moment,
    the clock being read once the lock is taken. *)
Fixpoint published (acts : list action) (s : Sys) : list dict :=
  match acts with
  | [] => []
  | a :: rest =>
      match a, at_pc s with
      | Worker, L154 g =>
          [make_snapshot (utcnow_isoformat world (Acquire :: hist s)) (bot s) g]
      | _, _ => []
      end ++ published rest (step a s)
  end.

(** The keys of the dict literal of lines 155-166. *)
Definition SNAPSHOT_KEYS : gset string :=
  {[ "time"; "coin"; "vs"; "price"; "prediction"; "decision"; "prompt";
     "ai_raw"; "interval"; "news" ]}.





(** The most recent write of a file: its path and what was written. *)
Fixpoint last_written (h : history) : option (str * list dict) :=
  match h with
  | [] => None
  | WriteFile path content :: _ => Some (path, content)
  | _ :: r => last_written r
  end.

(** Everything the program is ever seen to do to the outside: requests
    to the three CoinGecko / CoinCodex endpoints, the CoinDesk feed, one
    Groq model with the configured key, writes of one file, sleeps of
    five seconds or more. *)
Definition allowed (path : str) (ev : event) : Prop :=
  match ev with
  | HttpGet url =>
      (exists cid quote, url = COINGECKO_PRICE_URL ++ utf8 "?ids=" ++ cid
                               ++ utf8 "&vs_currencies=" ++ quote)
      \/ (exists id quote days, url = COINGECKO_CHART_URL id quote days)
      \/ (exists sym, url = COINCODEx_PRED_URL sym)
  | FeedParse url => url = COINDESK_RSS
  | GroqChat k m _ =>
      k = GROQ_API_KEY /\ m = MODEL /\ key_missing GROQ_API_KEY = false
  | WriteFile p _ => p = path
  | Sleep secs => 5 <= secs
  | _ => True
  end.

Definition not_a_write (ev : event) : Prop :=
  match ev with WriteFile _ _ => False | _ => True end.

(** What the log file was last asked to hold, against the log in
    memory. *)
Definition log_persisted (s : Sys) : Prop :=
  last_written (hist s)
  = match log (bot s) with
    | [] => None
    | _ => Some (log_file (bot s), log (bot s))
    end.




Definition nonspace (s : str) : Prop := Forall (fun c => isspace c = false) s.

(** Decimal digits, and the shape of a number printed with six
    decimals: sign, integer digits, point, six digits. *)
Definition is_digit (c : N) : Prop := (48 <= c <= 57)%N.

Definition six_decimals (sg : bool) (s : str) : Prop :=
  exists ip fr,
    s = sign_str sg ++ ip ++ [46%N] ++ fr
    /\ ip <> [] /\ Forall is_digit ip
    /\ Forall is_digit fr /\ length fr = 6%nat.

(* ================================================================ *)
(** * Properties *)
(* ================================================================ *)

(** Proofs reason about the helpers through their lemmas; [simpl]
    leaves them folded. *)
Arguments utf8 : simpl never.
Arguments get_price : simpl never.
Arguments get_history : simpl never.
Arguments latest_news : simpl never.
Arguments get_prediction : simpl never.
Arguments groq_decision : simpl never.
Arguments build_prompt : simpl never.
Arguments make_snapshot : simpl never.
Arguments Z.max : simpl never.

(** ** Tokens and blanks *)

Lemma split_ws_aux_blank cur w :
  blank w ->
  split_ws_aux cur w = match cur with [] => [] | _ => [rev cur] end.
Proof.
  intros Hw. revert cur. induction Hw as [|c w Hc _ IH]; intros cur.
  - reflexivity.
  - simpl. rewrite Hc. destruct cur; rewrite IH; reflexivity.
Qed.

Lemma split_ws_aux_app_blank cur s w :
  blank w -> split_ws_aux cur (s ++ w) = split_ws_aux cur s.
Proof.
  intros Hw. revert cur. induction s as [|c s IH]; intros cur.
  - simpl. rewrite split_ws_aux_blank by assumption. reflexivity.
  - simpl. destruct (isspace c).
    + destruct cur; rewrite IH; reflexivity.
    + apply IH.
Qed.

Lemma split_ws_blank_app w s :
  blank w -> split_ws (w ++ s) = split_ws s.
Proof.
  unfold split_ws. induction 1 as [|c w Hc _ IH]; simpl.
  - reflexivity.
  - rewrite Hc. exact IH.
Qed.

Lemma lstrip_decomp s : exists w, blank w /\ s = w ++ lstrip s.
Proof.
  induction s as [|c s [w [Hw Hs]]].
  - exists []. split; [constructor | reflexivity].
  - simpl. destruct (isspace c) eqn:Hc.
    + exists (c :: w). split; [constructor; assumption |].
      simpl. congruence.
    + exists []. split; [constructor | reflexivity].
Qed.

Lemma rstrip_decomp s : exists w, blank w /\ s = rstrip s ++ w.
Proof.
  destruct (lstrip_decomp (rev s)) as [w [Hw Hs]].
  exists (rev w). split.
  - apply Forall_rev. exact Hw.
  - unfold rstrip. rewrite <- rev_app_distr, <- Hs, rev_involutive.
    reflexivity.
Qed.

(** Stripping does not change the tokens. *)
Lemma split_ws_strip s : split_ws (strip s) = split_ws s.
Proof.
  unfold strip.
  destruct (lstrip_decomp s) as [w1 [H1 E1]].
  destruct (rstrip_decomp (lstrip s)) as [w2 [H2 E2]].
  rewrite E1 at 2. rewrite split_ws_blank_app by assumption.
  rewrite E2 at 2. unfold split_ws.
  rewrite split_ws_aux_app_blank by assumption. reflexivity.
Qed.

Lemma split_ws_aux_nil cur s :
  split_ws_aux cur s = [] <-> cur = [] /\ blank s.
Proof.
  revert cur. induction s as [|c s IH]; intros cur; simpl.
  - destruct cur; split; intros H; try discriminate.
    + split; [reflexivity | constructor].
    + reflexivity.
    + destruct H; discriminate.
  - destruct (isspace c) eqn:Hc.
    + destruct cur.
      * rewrite IH. split; intros [? Hb]; split; try reflexivity.
        -- constructor; assumption.
        -- inversion Hb; assumption.
      * split; intros H; [discriminate | destruct H; discriminate].
    + rewrite IH. split; intros [H1 H2]; [discriminate |].
      inversion H2; congruence.
Qed.

(** [s.split()] is empty exactly for a blank (or empty) string. *)
Lemma split_ws_nil s : split_ws s = [] <-> blank s.
Proof.
  unfold split_ws. rewrite split_ws_aux_nil. tauto.
Qed.

Lemma not_blank_has_token s :
  Exists (fun c => isspace c = false) s <-> ~ blank s.
Proof.
  split.
  - intros He Hb. unfold blank in Hb. rewrite Forall_forall in Hb.
    apply Exists_exists in He as [c [Hin Hc]].
    rewrite (Hb c Hin) in Hc. discriminate.
  - intros Hn. induction s as [|c s IH].
    + exfalso. apply Hn. constructor.
    + destruct (isspace c) eqn:Hc.
      * apply Exists_cons_tl. apply IH. intros Hb. apply Hn.
        constructor; assumption.
      * apply Exists_cons_hd. exact Hc.
Qed.

(** ** The decision engine *)

Lemma groq_decision_unfold news price prediction recent c v h :
  groq_decision news price prediction recent c v h
  = let P := build_prompt news price prediction recent c v in
    if key_missing GROQ_API_KEY then (Ok (utf8 "HOLD", P, KEY_MISSING), h)
    else
      let h' := GroqChat GROQ_API_KEY MODEL P :: h in
      match groq_choices world h GROQ_API_KEY MODEL P with
      | Raise e => (Raise e, h')
      | Ok [] => (Raise IndexError, h')
      | Ok (None :: _) => (Raise AttributeError, h')
      | Ok (Some s :: _) =>
          match split_ws (strip s) with
          | [] => (Raise IndexError, h')
          | t :: _ => (Ok (upper t, P, strip s), h')
          end
      end.
Proof.
  unfold groq_decision, bind, call, lift, ret.
  destruct (key_missing GROQ_API_KEY); [reflexivity |].
  cbv zeta.
  destruct (groq_choices world h GROQ_API_KEY MODEL
              (build_prompt news price prediction recent c v))
    as [[|[s|] ?]|e]; try reflexivity.
  destruct (split_ws (strip s)); reflexivity.
Qed.

(** C3. With no valid credential configured (the key is empty or still
    the placeholder), [groq_decision] returns HOLD, the composed
    prompt and the literal diagnostic string, whatever the other
    inputs, and the history is unchanged: no call left the process. *)
Theorem groq_decision_without_key news price prediction recent c v h :
  key_missing GROQ_API_KEY = true ->
  groq_decision news price prediction recent c v h
  = (Ok (utf8 "HOLD", build_prompt news price prediction recent c v,
         KEY_MISSING), h).
Proof.
  intros Hk. rewrite groq_decision_unfold. cbv zeta. rewrite Hk.
  reflexivity.
Qed.

(** When the variable is unset, empty, or holds the placeholder, the
    key counts as missing. *)
Lemma key_missing_unset :
  getenv_GROQ_API_KEY = None \/ getenv_GROQ_API_KEY = Some []
  \/ getenv_GROQ_API_KEY = Some GROQ_PLACEHOLDER ->
  key_missing GROQ_API_KEY = true.
Proof.
  unfold GROQ_API_KEY. intros [-> | [-> | ->]]; vm_compute; reflexivity.
Qed.

(** C10. With a credential configured and a reply delivered, the
    decision exists only if the reply holds a token: a blank or empty
    reply makes the extraction of the first token fail with
    [IndexError]; a reply with a token yields that token upper-cased. *)
Theorem groq_decision_needs_token news price prediction recent c v h reply rest :
  key_missing GROQ_API_KEY = false ->
  groq_choices world h GROQ_API_KEY MODEL
    (build_prompt news price prediction recent c v)
  = Ok (Some reply :: rest) ->
  let r := fst (groq_decision news price prediction recent c v h) in
  (blank reply -> r = Raise IndexError)
  /\ (forall d p a, r = Ok (d, p, a) ->
      exists tok toks, split_ws reply = tok :: toks /\ d = upper tok
                       /\ a = strip reply /\ ~ blank reply)
  /\ (~ blank reply -> is_ok r = true).
Proof.
  intros Hk Hw r. subst r. rewrite groq_decision_unfold. cbv zeta.
  rewrite Hk, Hw, split_ws_strip.
  destruct (split_ws reply) as [|tok toks] eqn:Hs; cbn [fst].
  - apply split_ws_nil in Hs. repeat split.
    + intros d p a H. discriminate H.
    + intros Hn. contradiction.
  - assert (Hnb : ~ blank reply).
    { intros Hb. apply split_ws_nil in Hb. congruence. }
    repeat split.
    + intros Hb. contradiction.
    + intros d p a H. injection H as <- _ <-. exists tok, toks. auto.
Qed.

(** ** The lines of the request text *)



















(** ** What a computation adds to the history *)

Lemma adds_ret {A} P (a : A) : adds P (ret a).
Proof. intros h. exists []. split; [reflexivity | constructor]. Qed.

Lemma adds_raise {A} P e : adds P (@raise A e).
Proof. intros h. exists []. split; [reflexivity | constructor]. Qed.

Lemma adds_lift {A} P (r : result A) : adds P (lift r).
Proof. intros h. exists []. split; [reflexivity | constructor]. Qed.

Lemma adds_call {A} (P : event -> Prop) ev (answer : history -> result A) :
  P ev -> adds P (call ev answer).
Proof.
  intros Hev h. exists [ev]. split; [reflexivity |].
  constructor; [exact Hev | constructor].
Qed.

Lemma adds_bind {A B} P (m : IO A) (k : A -> IO B) :
  adds P m -> (forall a, adds P (k a)) -> adds P (bind m k).
Proof.
  intros Hm Hk h. unfold bind.
  destruct (Hm h) as [n1 [E1 F1]].
  destruct (m h) as [[a|e] h1]; simpl in E1; subst h1.
  - destruct (Hk a (n1 ++ h)) as [n2 [E2 F2]].
    exists (n2 ++ n1). rewrite E2, app_assoc. split; [reflexivity |].
    apply Forall_app. split; assumption.
  - exists n1. split; [reflexivity | assumption].
Qed.

Lemma adds_try_except {A} P (m : IO A) (handler : exn -> IO A) :
  adds P m -> (forall e, adds P (handler e)) -> adds P (try_except m handler).
Proof.
  intros Hm Hk h. unfold try_except.
  destruct (Hm h) as [n1 [E1 F1]].
  destruct (m h) as [[a|e] h1]; simpl in E1; subst h1.
  - exists n1. split; [reflexivity | assumption].
  - destruct (Hk e (n1 ++ h)) as [n2 [E2 F2]].
    exists (n2 ++ n1). rewrite E2, app_assoc. split; [reflexivity |].
    apply Forall_app. split; assumption.
Qed.

Lemma adds_mapM {A B} P (f : A -> IO B) l :
  (forall a, adds P (f a)) -> adds P (mapM f l).
Proof.
  intros Hf. induction l as [|a l IH]; simpl.
  - apply adds_ret.
  - apply adds_bind; [apply Hf |]. intros b.
    apply adds_bind; [exact IH |]. intros bs. apply adds_ret.
Qed.

Ltac adds_tac :=
  repeat first
    [ apply adds_ret | apply adds_raise | apply adds_lift
    | (apply adds_call; reflexivity)
    | (apply adds_bind; [| intros ?])
    | (apply adds_try_except; [| intros ?])
    | (apply adds_mapM; intros ?) ].

Lemma get_price_adds sym v : adds network (get_price sym v).
Proof.
  unfold get_price, requests_get_json.
  destruct (SYMBOL_MAP !! upper sym) as [[|c cid]|]; adds_tac.
Qed.

Lemma get_history_adds sym v days : adds network (get_history sym v days).
Proof. unfold get_history, requests_get_json, read_point. adds_tac. Qed.

Lemma get_prediction_adds sym v : adds network (get_prediction sym v).
Proof.
  unfold get_prediction, requests_get_json. adds_tac.
  destruct (str_eqb _ _); adds_tac; apply get_price_adds.
Qed.

Lemma latest_news_adds limit : adds network (latest_news limit).
Proof.
  unfold latest_news, read_title. adds_tac. destruct (title _); adds_tac.
Qed.

Lemma groq_decision_adds news price prediction recent c v :
  adds network (groq_decision news price prediction recent c v).
Proof.
  unfold groq_decision. destruct (key_missing _); adds_tac.
Qed.

Lemma gather_adds b : adds network (gather b).
Proof.
  unfold gather.
  apply adds_bind; [apply get_price_adds | intros price].
  apply adds_bind; [apply get_history_adds | intros hs].
  apply adds_bind; [apply latest_news_adds | intros news].
  apply adds_bind; [apply get_prediction_adds | intros pred].
  apply adds_bind; [apply groq_decision_adds | intros [[d p] a]].
  apply adds_ret.
Qed.

(** ** The market data gateway *)


(** [get_history] has no such check: it always sends its request, for
    the id ["None"] when the symbol is not in the map. *)
Lemma read_point_hist p h : snd (read_point p h) = h.
Proof.
  unfold read_point, bind, lift, ret.
  destruct (getitem_idx p 0) as [t0|]; [| reflexivity].
  destruct (py_int t0); [| reflexivity].
  destruct (getitem_idx p 1) as [x0|]; [| reflexivity].
  destruct (py_float x0); reflexivity.
Qed.

Lemma mapM_read_point_hist ps h : snd (mapM read_point ps h) = h.
Proof.
  induction ps as [|p ps IH]; [reflexivity |].
  cbn [mapM]. unfold bind at 1.
  pose proof (read_point_hist p h) as Hp.
  destruct (read_point p h) as [[b|e] h1]; simpl in Hp; subst h1;
    [| reflexivity].
  unfold bind, ret.
  destruct (mapM read_point ps h) as [[bs|e] h2]; simpl in IH; subst h2;
    reflexivity.
Qed.

Lemma get_history_always_requests sym v days h :
  exists r,
    get_history sym v days h
    = (r, HttpGet (COINGECKO_CHART_URL (format_opt_str (SYMBOL_MAP !! upper sym))
                     (lower v) (str_of_int days)) :: h).
Proof.
  unfold get_history, requests_get_json, bind, call, lift.
  destruct (http_json world h _) as [data|]; [| eauto].
  destruct (dict_get_or_empty data _) as [prices|]; [| eauto].
  destruct (iterate prices) as [ps|]; [| eauto].
  match goal with |- context [mapM read_point ps ?h0] =>
    pose proof (mapM_read_point_hist ps h0) as Hm;
    destruct (mapM read_point ps h0) as [r h1] end.
  simpl in Hm. subst h1. eauto.
Qed.

(** *** Stepping the worker *)

Lemma run_until_slept_next fuel b p h n :
  p <> L173 ->
  run_until_slept (S fuel) {| bot := b; at_pc := p; hist := h; cycles_ok := n |}
  = run_until_slept fuel
      (worker_step {| bot := b; at_pc := p; hist := h; cycles_ok := n |}).
Proof. intros Hp. destruct p; try reflexivity. contradiction. Qed.

Lemma time_sleep_hist secs h : snd (time_sleep secs h) = Sleep secs :: h.
Proof. reflexivity. Qed.




Lemma run_until_slept_done fuel b h n :
  run_until_slept (S fuel) {| bot := b; at_pc := L173; hist := h; cycles_ok := n |}
  = after_sleep b h n.
Proof. reflexivity. Qed.


Lemma worker_step_attempt {A} (m : IO A) (next : A -> pc) b h n :
  (let '(p', h') := attempt m next h in
   {| bot := b; at_pc := p'; hist := h'; cycles_ok := n |})
  = match m h with
    | (Ok a, h') => {| bot := b; at_pc := next a; hist := h'; cycles_ok := n |}
    | (Raise e, h') => {| bot := b; at_pc := L172 e; hist := h'; cycles_ok := n |}
    end.
Proof. unfold attempt. destruct (m h) as [[a|e] h']; reflexivity. Qed.

Lemma worker_step_L154 b g h n :
  worker_step {| bot := b; at_pc := L154 g; hist := h; cycles_ok := n |}
  = {| bot := fst (publish g b h); at_pc := L173;
       hist := snd (publish g b h); cycles_ok := S n |}.
Proof. reflexivity. Qed.

Lemma worker_step_L172 b e h n :
  worker_step {| bot := b; at_pc := L172 e; hist := h; cycles_ok := n |}
  = {| bot := b; at_pc := L173; hist := PrintBot e :: h; cycles_ok := n |}.
Proof. reflexivity. Qed.

(** From the publish, and from the handler, the iteration ends with
    the sleep. *)
Lemma run_from_L154 fuel b g h n :
  run_until_slept (S (S fuel))
    {| bot := b; at_pc := L154 g; hist := h; cycles_ok := n |}
  = after_sleep (fst (publish g b h)) (snd (publish g b h)) (S n).
Proof.
  rewrite run_until_slept_next by discriminate.
  rewrite worker_step_L154, run_until_slept_done. reflexivity.
Qed.

Lemma run_from_L172 fuel b e h n :
  run_until_slept (S (S fuel))
    {| bot := b; at_pc := L172 e; hist := h; cycles_ok := n |}
  = after_sleep b (PrintBot e :: h) n.
Proof.
  rewrite run_until_slept_next by discriminate.
  rewrite worker_step_L172, run_until_slept_done. reflexivity.
Qed.

Lemma run_from_L151 fuel b price hs news pred h n :
  run_until_slept (S (S (S fuel)))
    {| bot := b; at_pc := L151 price hs news pred; hist := h; cycles_ok := n |}
  = match groq_decision news price pred (map snd hs) (coin b) (vs b) h with
    | (Ok (decision, prompt, ai_raw), h') =>
        let g := {| g_price := price; g_pred := pred; g_decision := decision;
                    g_prompt := prompt; g_ai_raw := ai_raw; g_news := news |} in
        after_sleep (fst (publish g b h')) (snd (publish g b h')) (S n)
    | (Raise e, h') => after_sleep b (PrintBot e :: h') n
    end.
Proof.
  rewrite run_until_slept_next by discriminate.
  unfold worker_step. cbn [at_pc bot hist cycles_ok].
  rewrite worker_step_attempt.
  destruct (groq_decision news price pred (map snd hs) (coin b) (vs b) h)
    as [[[[d pr] a]|e] h'].
  - apply run_from_L154.
  - apply run_from_L172.
Qed.

Lemma run_from_L150 fuel b price hs news h n :
  run_until_slept (S (S (S (S fuel))))
    {| bot := b; at_pc := L150 price hs news; hist := h; cycles_ok := n |}
  = match get_prediction (coin b) (vs b) h with
    | (Ok pred, h') =>
        run_until_slept (S (S (S fuel)))
          {| bot := b; at_pc := L151 price hs news pred; hist := h';
             cycles_ok := n |}
    | (Raise e, h') => after_sleep b (PrintBot e :: h') n
    end.
Proof.
  rewrite run_until_slept_next by discriminate.
  unfold worker_step. cbn [at_pc bot hist cycles_ok].
  rewrite worker_step_attempt.
  destruct (get_prediction (coin b) (vs b) h) as [[pred|e] h'].
  - reflexivity.
  - apply run_from_L172.
Qed.

Lemma get_prediction_total sym v h :
  exists r h', get_prediction sym v h = (Ok r, h').
Proof.
  unfold get_prediction, try_except.
  match goal with |- context [match ?m h with _ => _ end] =>
    destruct (m h) as [[r|e] h'] end; eauto.
Qed.

(** [get_prediction] one step at a time: whichever step raises, the
    handler of line 89 returns [None]. *)
Lemma get_prediction_unfold sym v h :
  let url := COINCODEx_PRED_URL (lower sym) in
  let h0 := HttpGet url :: h in
  get_prediction sym v h
  = match http_json world h url with
    | Raise _ => (Ok None, h0)
    | Ok j =>
    match getitem_key j (utf8 "predictions") with
    | Raise _ => (Ok None, h0)
    | Ok a =>
    match getitem_key a (utf8 "price_prediction_7d") with
    | Raise _ => (Ok None, h0)
    | Ok b =>
    match py_float b with
    | Raise _ => (Ok None, h0)
    | Ok pred_usd =>
        if str_eqb (upper v) (utf8 "USD") then (Ok (Some pred_usd), h0)
        else
          match get_price sym v h0 with
          | (Raise _, h1) => (Ok None, h1)
          | (Ok cur_vs, h1) =>
              match get_price sym (utf8 "USD") h1 with
              | (Raise _, h2) => (Ok None, h2)
              | (Ok cur_usd, h2) =>
                  (Ok (if float_truthy cur_usd
                       then Some (float_mul (float_div pred_usd cur_usd) cur_vs)
                       else None), h2)
              end
          end
    end end end end.
Proof.
  intros url h0.
  unfold get_prediction, try_except, requests_get_json, bind, call, lift, ret.
  fold url. fold h0.
  destruct (http_json world h url) as [j|e]; [| reflexivity].
  destruct (getitem_key j (utf8 "predictions")) as [a|e]; [| reflexivity].
  destruct (getitem_key a (utf8 "price_prediction_7d")) as [b|e]; [| reflexivity].
  destruct (py_float b) as [pred_usd|e]; [| reflexivity].
  destruct (str_eqb (upper v) (utf8 "USD")); [reflexivity |].
  destruct (get_price sym v h0) as [[cur_vs|e] h1]; [| reflexivity].
  destruct (get_price sym (utf8 "USD") h1) as [[cur_usd|e] h2]; reflexivity.
Qed.

(** C5. [get_prediction] returns for every input and never raises.
    It returns a number only when every step succeeded: the fetch, the
    two lookups, the conversion to a float and, for a quote other than
    USD, both price fetches with a USD price that is not zero.  Every
    failure gives [None]: a failed fetch, a missing ["predictions"]
    or ["price_prediction_7d"] member, a value that is no number, a
    failed conversion fetch, a zero USD price.  And a cycle that has
    reached line 150 goes on to line 151 with [pred = None] when the
    forecast provider throws, then (the decision made) publishes a
    snapshot whose prediction is absent: the cycle does not fail. *)
Theorem get_prediction_never_raises sym v h :
  let url := COINCODEx_PRED_URL (lower sym) in
  let h0 := HttpGet url :: h in
  (exists r h', get_prediction sym v h = (Ok r, h'))
  /\ (forall x h', get_prediction sym v h = (Ok (Some x), h') ->
      exists j a b pred_usd,
        http_json world h url = Ok j
        /\ getitem_key j (utf8 "predictions") = Ok a
        /\ getitem_key a (utf8 "price_prediction_7d") = Ok b
        /\ py_float b = Ok pred_usd
        /\ (str_eqb (upper v) (utf8 "USD") = true /\ x = pred_usd /\ h' = h0
            \/ str_eqb (upper v) (utf8 "USD") = false
               /\ exists cur_vs cur_usd h1,
                    get_price sym v h0 = (Ok cur_vs, h1)
                    /\ get_price sym (utf8 "USD") h1 = (Ok cur_usd, h')
                    /\ float_truthy cur_usd = true
                    /\ x = float_mul (float_div pred_usd cur_usd) cur_vs))
  /\ (forall e, http_json world h url = Raise e ->
      get_prediction sym v h = (Ok None, h0))
  /\ (forall j e, http_json world h url = Ok j ->
      getitem_key j (utf8 "predictions") = Raise e ->
      get_prediction sym v h = (Ok None, h0))
  /\ (forall j a e, http_json world h url = Ok j ->
      getitem_key j (utf8 "predictions") = Ok a ->
      getitem_key a (utf8 "price_prediction_7d") = Raise e ->
      get_prediction sym v h = (Ok None, h0))
  /\ (forall j a b e, http_json world h url = Ok j ->
      getitem_key j (utf8 "predictions") = Ok a ->
      getitem_key a (utf8 "price_prediction_7d") = Ok b ->
      py_float b = Raise e ->
      get_prediction sym v h = (Ok None, h0))
  /\ (forall j a b pred_usd, http_json world h url = Ok j ->
      getitem_key j (utf8 "predictions") = Ok a ->
      getitem_key a (utf8 "price_prediction_7d") = Ok b ->
      py_float b = Ok pred_usd ->
      str_eqb (upper v) (utf8 "USD") = false ->
      (forall e h1, get_price sym v h0 = (Raise e, h1) ->
                    get_prediction sym v h = (Ok None, h1))
      /\ (forall cur_vs h1 e h2,
             get_price sym v h0 = (Ok cur_vs, h1) ->
             get_price sym (utf8 "USD") h1 = (Raise e, h2) ->
             get_prediction sym v h = (Ok None, h2))
      /\ (forall cur_vs h1 cur_usd h2,
             get_price sym v h0 = (Ok cur_vs, h1) ->
             get_price sym (utf8 "USD") h1 = (Ok cur_usd, h2) ->
             float_truthy cur_usd = false ->
             get_prediction sym v h = (Ok None, h2)))
  /\ (forall s price hs news e,
      sym = coin (bot s) -> v = vs (bot s) -> h = hist s ->
      at_pc s = L150 price hs news ->
      http_json world h url = Raise e ->
      let s1 := worker_step s in
      at_pc s1 = L151 price hs news None
      /\ (is_ok (fst (groq_decision news price None (map snd hs)
                        (coin (bot s)) (vs (bot s)) (hist s1))) = true ->
          let s' := run_cycle s in
          _snap (bot s') !! "prediction" = Some VNone
          /\ log (bot s') = log (bot s) ++ [_snap (bot s')]
          /\ cycles_ok s' = S (cycles_ok s))).
Proof.
  intros url h0.
  pose proof (get_prediction_unfold sym v h) as Hu. cbv zeta in Hu.
  fold url in Hu. fold h0 in Hu.
  split; [apply get_prediction_total |].
  split.
  { intros x h'. rewrite Hu. clear Hu.
    destruct (http_json world h url) as [j|e] eqn:Ej;
      [| intros H; discriminate H].
    destruct (getitem_key j (utf8 "predictions")) as [a|e] eqn:Ea;
      [| intros H; discriminate H].
    destruct (getitem_key a (utf8 "price_prediction_7d")) as [b|e] eqn:Eb;
      [| intros H; discriminate H].
    destruct (py_float b) as [pred_usd|e] eqn:Ep; [| intros H; discriminate H].
    intros H. exists j, a, b, pred_usd.
    split; [reflexivity |]. split; [exact Ea |]. split; [exact Eb |].
    split; [exact Ep |].
    destruct (str_eqb (upper v) (utf8 "USD")).
    - left. injection H as <- <-. auto.
    - right. split; [reflexivity |].
      destruct (get_price sym v h0) as [[cur_vs|e] h1];
        [| discriminate H].
      destruct (get_price sym (utf8 "USD") h1) as [[cur_usd|e] h2] eqn:E2;
        [| discriminate H].
      destruct (float_truthy cur_usd) eqn:Ht; [| discriminate H].
      injection H as <- <-. exists cur_vs, cur_usd, h1. auto. }
  split; [intros e He; rewrite Hu, He; reflexivity |].
  split; [intros j e Hj Ha; rewrite Hu, Hj, Ha; reflexivity |].
  split; [intros j a e Hj Ha Hb; rewrite Hu, Hj, Ha, Hb; reflexivity |].
  split; [intros j a b e Hj Ha Hb Hp; rewrite Hu, Hj, Ha, Hb, Hp; reflexivity |].
  split.
  { intros j a b pred_usd Hj Ha Hb Hp Hv.
    rewrite Hu, Hj, Ha, Hb, Hp, Hv. split; [| split].
    - intros e h1 ->. reflexivity.
    - intros cur_vs h1 e h2 -> ->. reflexivity.
    - intros cur_vs h1 cur_usd h2 -> -> ->. reflexivity. }
  intros s price hs news e -> -> -> Hpc He.
  assert (Hp : get_prediction (coin (bot s)) (vs (bot s)) (hist s)
               = (Ok None, HttpGet url :: hist s))
    by (rewrite Hu, He; reflexivity).
  clear Hu.
  destruct s as [b p h n]. cbn [bot at_pc hist cycles_ok] in *. subst p.
  assert (H1 : worker_step {| bot := b; at_pc := L150 price hs news;
                               hist := h; cycles_ok := n |}
               = {| bot := b; at_pc := L151 price hs news None;
                    hist := HttpGet url :: h; cycles_ok := n |}).
  { unfold worker_step. cbn [at_pc bot hist cycles_ok].
    rewrite worker_step_attempt, Hp. reflexivity. }
  cbv zeta. rewrite H1. cbn [bot at_pc hist cycles_ok].
  split; [reflexivity |]. intros Hok.
  unfold run_cycle. rewrite run_from_L150, Hp, run_from_L151.
  destruct (groq_decision news price None (map snd hs) (coin b) (vs b)
              (HttpGet url :: h)) as [[[[d pr] a]|e'] h3];
    cbn [fst is_ok] in Hok; [| discriminate Hok].
  cbv zeta. unfold after_sleep. cbn [bot cycles_ok].
  unfold publish. cbn [fst _snap log].
  split; [| split; reflexivity].
  unfold make_snapshot. cbn [g_pred opt_float].
  rewrite lookup_insert_ne by discriminate.
  rewrite lookup_insert_ne by discriminate.
  rewrite lookup_insert_ne by discriminate.
  rewrite lookup_insert_ne by discriminate.
  apply lookup_insert_eq.
Qed.

(** ** The news gateway *)

Lemma mapM_titled ts h : mapM read_title (map titled ts) h = (Ok ts, h).
Proof.
  induction ts as [|t ts IH]; simpl; [reflexivity |].
  unfold bind, ret in *. simpl. rewrite IH. reflexivity.
Qed.

Lemma mapM_untitled es h :
  In {| title := None |} es -> mapM read_title es h = (Raise AttributeError, h).
Proof.
  induction es as [|[[t|]] es IH]; simpl; intros Hin.
  - contradiction.
  - destruct Hin as [Heq | Hin]; [discriminate |].
    unfold bind, ret in *. simpl. rewrite (IH Hin). reflexivity.
  - reflexivity.
Qed.



(** [latest_news] has no handler of its own: an exception of the
    parser, or an entry without title, reaches its caller (in [run],
    the handler of line 171); and a negative limit drops entries from
    the end of the feed. *)
Lemma latest_news_unguarded limit h :
  let fetched := FeedParse COINDESK_RSS :: h in
  (forall e,
      feed_entries world h COINDESK_RSS = Raise e ->
      latest_news limit h = (Raise e, fetched))
  /\ (forall es,
      feed_entries world h COINDESK_RSS = Ok es ->
      In {| title := None |} (slice_to limit es) ->
      latest_news limit h = (Raise AttributeError, fetched))
  /\ (forall ts,
      limit < 0 ->
      feed_entries world h COINDESK_RSS = Ok (map titled ts) ->
      latest_news limit h
      = (Ok (firstn (length ts - Z.to_nat (- limit)) ts), fetched)).
Proof.
  intros fetched.
  assert (Hun : forall r, feed_entries world h COINDESK_RSS = r ->
            latest_news limit h
            = match r with
              | Ok es => mapM read_title (slice_to limit es) fetched
              | Raise e => (Raise e, fetched)
              end).
  { intros r <-. unfold latest_news, bind, call.
    destruct (feed_entries world h COINDESK_RSS); reflexivity. }
  split; [| split].
  - intros e Hf. rewrite (Hun _ Hf). reflexivity.
  - intros es Hf Hin. rewrite (Hun _ Hf). apply mapM_untitled. exact Hin.
  - intros ts Hl Hf. rewrite (Hun _ Hf). unfold slice_to.
    apply Z.leb_gt in Hl as Hl'. rewrite Hl'.
    rewrite length_map, firstn_map. apply mapM_titled.
Qed.

(** ** The worker, statement by statement *)

Lemma attempt_adds {A} (m : IO A) (next : A -> pc) h :
  adds network m ->
  exists new, snd (attempt m next h) = new ++ h /\ Forall network new.
Proof.
  intros Hm. destruct (Hm h) as [new [E F]]. exists new.
  unfold attempt. destruct (m h) as [[a|e] h']; simpl in *; auto.
Qed.

Lemma attempt_fst {A} (m : IO A) (next : A -> pc) h :
  fst (attempt m next h)
  = match fst (m h) with Ok a => next a | Raise e => L172 e end.
Proof. unfold attempt. destruct (m h) as [[a|e] h']; reflexivity. Qed.

Lemma publish_hist g b h :
  exists mid,
    snd (publish g b h) = Release :: mid ++ UtcNow :: Acquire :: h
    /\ (mid = [WriteFile (log_file b) (log (fst (publish g b h)))]
        \/ exists e, mid = [PrintSaveError e;
                            WriteFile (log_file b) (log (fst (publish g b h)))]).
Proof.
  unfold publish, save_log. cbn [fst snd log log_file].
  destruct (write_file world _ _ _) as [u|e].
  - exists [WriteFile (log_file b)
              (log b ++ [make_snapshot (utcnow_isoformat world (Acquire :: h)) b g])].
    split; [reflexivity |]. left. reflexivity.
  - exists [PrintSaveError e;
            WriteFile (log_file b)
              (log b ++ [make_snapshot (utcnow_isoformat world (Acquire :: h)) b g])].
    split; [reflexivity |]. right. exists e. reflexivity.
Qed.

(** Only the publish of line 154 changes the bot. *)
Lemma worker_step_bot s :
  bot (worker_step s)
  = match at_pc s with
    | L154 g => fst (publish g (bot s) (hist s))
    | _ => bot s
    end.
Proof.
  unfold worker_step.
  destruct (at_pc s);
    try (match goal with |- context [attempt ?m ?k ?h] =>
           destruct (attempt m k h) end; reflexivity);
    try reflexivity.
Qed.

Lemma worker_step_hist s :
  exists new, hist (worker_step s) = new ++ hist s /\ statement_events s new.
Proof.
  unfold worker_step.
  destruct (at_pc s) eqn:Hpc.
  - destruct (attempt_adds (get_price (coin (bot s)) (vs (bot s))) L148 (hist s)
                (get_price_adds _ _)) as [new [E F]].
    destruct (attempt _ _ _). exists new. split; [exact E | constructor; exact F].
  - destruct (attempt_adds (get_history (coin (bot s)) (vs (bot s)) 1)
                (fun hs => L149 price (last_n 6 hs)) (hist s)
                (get_history_adds _ _ _)) as [new [E F]].
    destruct (attempt _ _ _). exists new. split; [exact E | constructor; exact F].
  - destruct (attempt_adds (latest_news 5) (L150 price hist0) (hist s)
                (latest_news_adds _)) as [new [E F]].
    destruct (attempt _ _ _). exists new. split; [exact E | constructor; exact F].
  - destruct (attempt_adds (get_prediction (coin (bot s)) (vs (bot s)))
                (L151 price hist0 news) (hist s)
                (get_prediction_adds _ _)) as [new [E F]].
    destruct (attempt _ _ _). exists new. split; [exact E | constructor; exact F].
  - match goal with |- context [attempt ?m ?k ?h] =>
      destruct (attempt_adds m k h (groq_decision_adds _ _ _ _ _ _))
        as [new [E F]]; destruct (attempt m k h) end.
    exists new. split; [exact E | constructor; exact F].
  - destruct (publish_hist g (bot s) (hist s)) as [mid [E Hmid]].
    destruct (publish g (bot s) (hist s)) as [b' h'] eqn:Hp. simpl in *.
    exists (Release :: mid ++ [UtcNow; Acquire]). split.
    + rewrite E. simpl. rewrite <- app_assoc. reflexivity.
    + constructor 2.
      destruct Hmid as [-> | [e ->]]; repeat constructor.
  - exists [PrintBot exc]. split; [reflexivity | constructor 3].
  - exists [Sleep (Z.max 5 (interval (bot s)))]. split; [reflexivity | constructor 4].
  - exists []. split; [reflexivity | constructor; constructor].
Qed.

Lemma exec_snoc acts a s : exec (acts ++ [a]) s = step a (exec acts s).
Proof. unfold exec. rewrite fold_left_app. reflexivity. Qed.

(** One iteration with nothing interleaved is the [try] body followed
    by the publish, or by the handler, and then the sleep. *)
Lemma run_cycle_gather s :
  at_pc s = L147 ->
  run_cycle s
  = match gather (bot s) (hist s) with
    | (Ok g, h') =>
        after_sleep (fst (publish g (bot s) h')) (snd (publish g (bot s) h'))
          (S (cycles_ok s))
    | (Raise e, h') => after_sleep (bot s) (PrintBot e :: h') (cycles_ok s)
    end.
Proof.
  destruct s as [b p h n]. cbn [bot at_pc hist cycles_ok]. intros ->.
  unfold run_cycle, gather. unfold bind at 1.
  rewrite run_until_slept_next by discriminate.
  unfold worker_step at 1. cbn [at_pc bot hist cycles_ok].
  rewrite worker_step_attempt.
  destruct (get_price (coin b) (vs b) h) as [[price|e] h1];
    [| apply run_from_L172].
  unfold bind at 1.
  rewrite run_until_slept_next by discriminate.
  unfold worker_step at 1. cbn [at_pc bot hist cycles_ok].
  rewrite worker_step_attempt.
  destruct (get_history (coin b) (vs b) 1 h1) as [[hs|e] h2];
    [| apply run_from_L172].
  unfold bind at 1.
  rewrite run_until_slept_next by discriminate.
  unfold worker_step at 1. cbn [at_pc bot hist cycles_ok].
  rewrite worker_step_attempt.
  destruct (latest_news 5 h2) as [[news|e] h3]; [| apply run_from_L172].
  unfold bind at 1.
  rewrite run_from_L150.
  destruct (get_prediction (coin b) (vs b) h3) as [[pred|e] h4];
    [| reflexivity].
  rewrite run_from_L151. unfold bind, ret.
  destruct (groq_decision news price pred (map snd (last_n 6 hs))
              (coin b) (vs b) h4) as [[[[d pr] a]|e] h5]; reflexivity.
Qed.

Lemma publish_bot g b h :
  fst (publish g b h)
  = {| coin := coin b; vs := vs b; interval := interval b;
       _snap := make_snapshot (utcnow_isoformat world (Acquire :: h)) b g;
       log := log b ++ [make_snapshot (utcnow_isoformat world (Acquire :: h)) b g];
       log_file := log_file b |}.
Proof. reflexivity. Qed.

(** ** The interval *)




(** ** A failed cycle *)


(** The ways the [try] body can raise: exactly the four fetches and
    the decision, in program order. *)
Lemma gather_raise_cases b h e h' :
  gather b h = (Raise e, h') ->
  get_price (coin b) (vs b) h = (Raise e, h')
  \/ (exists price h1, get_price (coin b) (vs b) h = (Ok price, h1)
      /\ (get_history (coin b) (vs b) 1 h1 = (Raise e, h')
          \/ exists hs h2, get_history (coin b) (vs b) 1 h1 = (Ok hs, h2)
             /\ (latest_news 5 h2 = (Raise e, h')
                 \/ exists news h3, latest_news 5 h2 = (Ok news, h3)
                    /\ exists pred h4,
                        get_prediction (coin b) (vs b) h3 = (Ok pred, h4)
                        /\ groq_decision news price pred (map snd (last_n 6 hs))
                             (coin b) (vs b) h4 = (Raise e, h')))).
Proof.
  unfold gather, bind.
  destruct (get_price (coin b) (vs b) h) as [[price|e1] h1];
    [| intros H; inversion H; subst; left; reflexivity].
  intros H. right. exists price, h1. split; [reflexivity |].
  destruct (get_history (coin b) (vs b) 1 h1) as [[hs|e2] h2];
    [| inversion H; subst; left; reflexivity].
  right. exists hs, h2. split; [reflexivity |].
  destruct (latest_news 5 h2) as [[news|e3] h3];
    [| inversion H; subst; left; reflexivity].
  right. exists news, h3. split; [reflexivity |].
  destruct (get_prediction_total (coin b) (vs b) h3) as [pred [h4 Hp]].
  rewrite Hp in H. exists pred, h4. split; [exact Hp |].
  destruct (groq_decision news price pred (map snd (last_n 6 hs))
              (coin b) (vs b) h4) as [[[[d pr] a]|e5] h5];
    [discriminate | injection H as -> ->; reflexivity].
Qed.

(** ** Snapshot and log *)

Lemma step_bot a s :
  bot (step a s)
  = match a, at_pc s with
    | Worker, L154 g => fst (publish g (bot s) (hist s))
    | CallConfigure c v i, _ => fst (configure c v i (bot s) (hist s))
    | _, _ => bot s
    end.
Proof.
  destruct a; simpl; try (destruct (at_pc s); reflexivity).
  rewrite worker_step_bot. destruct (at_pc s); reflexivity.
Qed.

Lemma step_cycles_ok a s :
  cycles_ok (step a s)
  = match a, at_pc s with
    | Worker, L154 _ => S (cycles_ok s)
    | _, _ => cycles_ok s
    end.
Proof.
  destruct a; simpl; try (destruct (at_pc s); reflexivity).
  unfold worker_step.
  destruct (at_pc s);
    try (match goal with |- context [attempt ?m ?k ?h] =>
           destruct (attempt m k h) end; reflexivity);
    try reflexivity.
Qed.

Lemma last_logged_publish g b h :
  last_logged (fst (publish g b h)) = _snap (fst (publish g b h)).
Proof. unfold last_logged. simpl. rewrite last_snoc. reflexivity. Qed.

Lemma step_invariant a s : snapshot_invariant s -> snapshot_invariant (step a s).
Proof.
  intros [Hlen Hsnap]. unfold snapshot_invariant.
  rewrite step_bot, step_cycles_ok.
  destruct a; try (destruct (at_pc s); split; assumption).
  - destruct (at_pc s); try (split; assumption).
    split.
    + simpl. rewrite length_app. simpl. lia.
    + left. symmetry. apply last_logged_publish.
  - assert (Hgoal : length (log (fst (configure coin1 vs1 interval1 (bot s) (hist s))))
                    = cycles_ok s
                    /\ (_snap (fst (configure coin1 vs1 interval1 (bot s) (hist s)))
                        = last_logged (fst (configure coin1 vs1 interval1 (bot s) (hist s)))
                        \/ _snap (fst (configure coin1 vs1 interval1 (bot s) (hist s)))
                           = <["status" := STATUS_MARK]>
                               (last_logged (fst (configure coin1 vs1 interval1 (bot s) (hist s)))))).
    { split; [exact Hlen |]. right. simpl. unfold last_logged in *. simpl.
      destruct Hsnap as [-> | ->]; [reflexivity |].
      apply insert_insert_eq. }
    destruct (at_pc s); exact Hgoal.
Qed.

Lemma step_exact a s :
  is_configure a = false ->
  _snap (bot s) = last_logged (bot s) ->
  _snap (bot (step a s)) = last_logged (bot (step a s)).
Proof.
  intros Ha H. rewrite step_bot.
  destruct a; try discriminate; try (destruct (at_pc s); exact H).
  destruct (at_pc s); try exact H.
  symmetry. apply last_logged_publish.
Qed.

(** The dict literal of lines 155-166 has no ["status"] key, so no
    entry of the log ever has one. *)
Lemma make_snapshot_unmarked t b g : make_snapshot t b g !! "status" = None.
Proof.
  unfold make_snapshot.
  repeat (rewrite lookup_insert_ne by discriminate). apply lookup_empty.
Qed.

Lemma step_log_unmarked a s :
  Forall (fun d : dict => d !! "status" = None) (log (bot s)) ->
  Forall (fun d : dict => d !! "status" = None) (log (bot (step a s))).
Proof.
  intros H. rewrite step_bot.
  destruct a; try (destruct (at_pc s); exact H).
  destruct (at_pc s); try exact H.
  rewrite publish_bot. cbn [log]. apply Forall_app. split; [exact H |].
  constructor; [apply make_snapshot_unmarked | constructor].
Qed.

Lemma last_logged_unmarked b :
  Forall (fun d : dict => d !! "status" = None) (log b) ->
  last_logged b !! "status" = None.
Proof.
  intros H. unfold last_logged.
  destruct (last (log b)) as [d|] eqn:Hl; cbn [default].
  - apply last_Some_elem_of in Hl.
    rewrite Forall_forall in H. exact (H d Hl).
  - apply lookup_empty.
Qed.

(** Until the next publish a marked snapshot stays marked. *)
Lemma step_marked a s :
  (forall g, a = Worker -> at_pc s <> L154 g) ->
  _snap (bot s) = <["status" := STATUS_MARK]> (last_logged (bot s)) ->
  _snap (bot (step a s))
  = <["status" := STATUS_MARK]> (last_logged (bot (step a s))).
Proof.
  intros Hnp H. rewrite step_bot.
  destruct a; try (destruct (at_pc s); exact H).
  - destruct (at_pc s) eqn:Hpc; try exact H.
    exfalso. exact (Hnp g eq_refl eq_refl).
  - assert (Hgoal : _snap (fst (configure coin1 vs1 interval1 (bot s) (hist s)))
                    = <["status" := STATUS_MARK]>
                        (last_logged
                           (fst (configure coin1 vs1 interval1 (bot s) (hist s))))).
    { unfold last_logged in *. cbn [configure fst _snap log]. rewrite H.
      apply insert_insert_eq. }
    destruct (at_pc s); exact Hgoal.
Qed.

(** C1 (as the code has it).  In every state the running bot can
    reach, whatever the worker and the request handlers do and in
    whatever order: the log has as many entries as [try] bodies have
    completed, and no entry of the log has the key ["status"]; the
    current snapshot is the log's last entry (the empty dict while
    there is none), or that entry with the status mark.  [configure]
    writes ["status"] = ["reconfigured"] into the current snapshot
    only and leaves the log alone, so right after a reconfigure the
    snapshot is the last entry plus that mark: the two differ, and by
    exactly that key.  The mark stays until the next publish; each
    publish makes snapshot and last entry equal again, and they stay
    equal while no reconfigure happens. *)
Theorem snapshot_matches_log acts coin0 vs0 interval0 log_file0 :
  let s := exec acts (start coin0 vs0 interval0 log_file0) in
  length (log (bot s)) = cycles_ok s
  /\ Forall (fun d : dict => d !! "status" = None) (log (bot s))
  /\ (_snap (bot s) = last_logged (bot s)
      \/ _snap (bot s) = <["status" := STATUS_MARK]> (last_logged (bot s)))
  /\ (forallb (fun a => negb (is_configure a)) acts = true ->
      _snap (bot s) = last_logged (bot s))
  /\ (forall c v i,
      let s' := step (CallConfigure c v i) s in
      log (bot s') = log (bot s)
      /\ _snap (bot s') = <["status" := STATUS_MARK]> (_snap (bot s))
      /\ _snap (bot s') = <["status" := STATUS_MARK]> (last_logged (bot s'))
      /\ _snap (bot s') !! "status" = Some STATUS_MARK
      /\ last_logged (bot s') !! "status" = None
      /\ _snap (bot s') <> last_logged (bot s')
      /\ (forall k, k <> "status" ->
                    _snap (bot s') !! k = last_logged (bot s') !! k))
  /\ (forall a,
      (forall g, a = Worker -> at_pc s <> L154 g) ->
      _snap (bot s) = <["status" := STATUS_MARK]> (last_logged (bot s)) ->
      _snap (bot (step a s))
      = <["status" := STATUS_MARK]> (last_logged (bot (step a s))))
  /\ (forall g, at_pc s = L154 g ->
      last (log (bot (step Worker s))) = Some (_snap (bot (step Worker s)))
      /\ _snap (bot (step Worker s)) = last_logged (bot (step Worker s))
      /\ cycles_ok (step Worker s) = S (cycles_ok s))
  /\ (forall a, is_configure a = false ->
      _snap (bot s) = last_logged (bot s) ->
      _snap (bot (step a s)) = last_logged (bot (step a s))).
Proof.
  intros s.
  assert (Hinv : snapshot_invariant s).
  { subst s. induction acts as [|a acts IH] using rev_ind.
    - split; [reflexivity | left; reflexivity].
    - rewrite exec_snoc. apply step_invariant. exact IH. }
  assert (Hun : Forall (fun d : dict => d !! "status" = None) (log (bot s))).
  { subst s. clear Hinv. induction acts as [|a acts IH] using rev_ind.
    - constructor.
    - rewrite exec_snoc. apply step_log_unmarked. exact IH. }
  destruct Hinv as [Hlen Hsnap].
  split; [exact Hlen |]. split; [exact Hun |]. split; [exact Hsnap |].
  split; [| split; [| split; [| split]]].
  - subst s. clear Hlen Hsnap Hun.
    induction acts as [|a acts IH] using rev_ind; intros Hno.
    + reflexivity.
    + rewrite forallb_app in Hno. apply andb_true_iff in Hno as [H1 H2].
      simpl in H2. rewrite andb_true_r in H2. apply negb_true_iff in H2.
      rewrite exec_snoc. apply step_exact; [exact H2 | apply IH; exact H1].
  - intros c v i s'.
    assert (Hb : bot s' = fst (configure c v i (bot s) (hist s))) by reflexivity.
    assert (Hlog : log (bot s') = log (bot s)) by (rewrite Hb; reflexivity).
    assert (Hll : last_logged (bot s') = last_logged (bot s))
      by (unfold last_logged; rewrite Hlog; reflexivity).
    assert (Hsn : _snap (bot s') = <["status" := STATUS_MARK]> (_snap (bot s)))
      by (rewrite Hb; reflexivity).
    assert (Hmk : _snap (bot s')
                  = <["status" := STATUS_MARK]> (last_logged (bot s'))).
    { rewrite Hsn, Hll. destruct Hsnap as [-> | ->]; [reflexivity |].
      apply insert_insert_eq. }
    assert (Hno : last_logged (bot s') !! "status" = None)
      by (rewrite Hll; apply last_logged_unmarked; exact Hun).
    split; [exact Hlog |]. split; [exact Hsn |]. split; [exact Hmk |].
    split; [rewrite Hsn; apply lookup_insert_eq |].
    split; [exact Hno |]. split.
    + intros Heq. rewrite <- Heq, Hsn, lookup_insert_eq in Hno.
      discriminate Hno.
    + intros k Hk. rewrite Hmk. apply lookup_insert_ne. congruence.
  - intros a. apply step_marked.
  - intros g Hpc. rewrite step_bot, step_cycles_ok, Hpc.
    rewrite last_logged_publish. rewrite publish_bot. cbn [log _snap].
    rewrite last_snoc. repeat split.
  - intros a. apply step_exact.
Qed.

(** ** The market data gateway and unknown symbols *)

Lemma py_int_no_message v : is_unknown_symbol (py_int v) = false.
Proof.
  destruct v as [| b | z | x | s | l | ms]; simpl; try reflexivity.
  - destruct x; simpl; try reflexivity.
  - destruct (int_of_str s); reflexivity.
Qed.

Lemma py_float_no_message v : is_unknown_symbol (py_float v) = false.
Proof.
  destruct v as [| b | z | x | s | l | ms]; simpl; try reflexivity.
  - destruct (float_of_int z); reflexivity.
  - destruct (float_of_str s); reflexivity.
Qed.

Lemma getitem_idx_no_message v i : is_unknown_symbol (getitem_idx v i) = false.
Proof.
  destruct v as [| b | z | x | s | l | ms]; simpl; try reflexivity.
  - destruct (nth_error s i); reflexivity.
  - destruct (nth_error l i); reflexivity.
Qed.

Lemma read_point_no_message p h :
  is_unknown_symbol (fst (read_point p h)) = false.
Proof.
  unfold read_point, bind, lift, ret.
  pose proof (getitem_idx_no_message p 0) as H0.
  destruct (getitem_idx p 0) as [t0|e0]; [| exact H0].
  pose proof (py_int_no_message t0) as H1.
  destruct (py_int t0) as [t|e1]; [| exact H1].
  pose proof (getitem_idx_no_message p 1) as H2.
  destruct (getitem_idx p 1) as [x0|e2]; [| exact H2].
  pose proof (py_float_no_message x0) as H3.
  destruct (py_float x0) as [x|e3]; [reflexivity | exact H3].
Qed.

Lemma mapM_read_point_no_message ps h :
  is_unknown_symbol (fst (mapM read_point ps h)) = false.
Proof.
  revert h. induction ps as [|p ps IH]; intros h; [reflexivity |].
  cbn [mapM]. unfold bind at 1.
  pose proof (read_point_no_message p h) as Hp.
  destruct (read_point p h) as [[b|e] h1]; [| exact Hp].
  unfold bind, ret. specialize (IH h1).
  destruct (mapM read_point ps h1) as [[bs|e] h2]; [reflexivity | exact IH].
Qed.

(** [get_history] never fails with the unknown-symbol error, unless the
    HTTP layer itself were to raise a [ValueError] with that shape. *)
Lemma get_history_no_symbol_check sym v days h :
  is_unknown_symbol
    (http_json world h
       (COINGECKO_CHART_URL (format_opt_str (SYMBOL_MAP !! upper sym))
          (lower v) (str_of_int days))) = false ->
  is_unknown_symbol (fst (get_history sym v days h)) = false.
Proof.
  intros Hw. unfold get_history, requests_get_json, bind, call, lift.
  destruct (http_json world h _) as [data|e]; [| exact Hw].
  destruct data; try reflexivity. cbn [dict_get_or_empty].
  destruct (assoc (utf8 "prices") members) as [prices|].
  - destruct prices; try reflexivity; cbn [iterate];
      apply mapM_read_point_no_message.
  - reflexivity.
Qed.

(** ** The lock *)

Lemma held_after_app held l1 l2 :
  held_after held (l1 ++ l2) = held_after (held_after held l1) l2.
Proof.
  revert held. induction l1 as [|ev l1 IH]; intros held; [reflexivity |].
  destruct ev; simpl; apply IH.
Qed.

Lemma net_under_lock_app held l1 l2 :
  net_under_lock held (l1 ++ l2)
  = net_under_lock held l1 || net_under_lock (held_after held l1) l2.
Proof.
  revert held. induction l1 as [|ev l1 IH]; intros held; [reflexivity |].
  destruct ev; simpl; rewrite IH; try reflexivity;
    rewrite orb_assoc; reflexivity.
Qed.

(** Network calls alone neither take the lock nor run under it when
    it is free. *)
Lemma network_only held l :
  Forall network l ->
  held_after held l = held /\ net_under_lock false l = false.
Proof.
  induction 1 as [|ev l Hev _ [IH1 IH2]]; [split; reflexivity |].
  destruct ev; try discriminate Hev; simpl; auto.
Qed.

Lemma local_io_only held l :
  Forall local_io l ->
  held_after held l = held /\ net_under_lock held l = false.
Proof.
  induction 1 as [|ev l Hev _ [IH1 IH2]]; [split; reflexivity |].
  destruct ev; try destruct Hev; simpl; rewrite ?andb_false_r; auto.
Qed.

Lemma disciplined_app new h :
  disciplined new -> disciplined h -> disciplined (new ++ h).
Proof.
  intros [N1 N2] [H1 H2]. unfold disciplined.
  rewrite rev_app_distr, net_under_lock_app, held_after_app, H1, H2, N1, N2.
  split; reflexivity.
Qed.

Lemma statement_events_disciplined s new :
  statement_events s new -> disciplined new.
Proof.
  intros [new' Hn | mid Hm | e |]; unfold disciplined.
  - apply Forall_rev in Hn.
    destruct (network_only false (rev new') Hn) as [-> ->]. split; reflexivity.
  - apply Forall_rev in Hm.
    destruct (local_io_only true (rev mid) Hm) as [E1 E2].
    cbn [rev]. rewrite rev_app_distr. cbn [rev app].
    change ((Acquire :: UtcNow :: rev mid) ++ [Release])
      with (Acquire :: UtcNow :: (rev mid ++ [Release])).
    cbn [net_under_lock held_after is_network andb orb].
    rewrite net_under_lock_app, held_after_app, E1, E2. split; reflexivity.
  - split; reflexivity.
  - split; reflexivity.
Qed.

(** The worker and the other entry points keep the discipline: no
    network call is made by them while the lock is held. *)
Lemma lock_discipline_without_api_history acts s :
  forallb (fun a => negb (is_api_history a)) acts = true ->
  disciplined (hist s) -> disciplined (hist (exec acts s)).
Proof.
  induction acts as [|a acts IH] using rev_ind; intros Hno Hs; [exact Hs |].
  rewrite forallb_app in Hno. apply andb_true_iff in Hno as [H1 H2].
  rewrite exec_snoc. specialize (IH H1 Hs).
  destruct a; try discriminate H2; cbn [step hist snd snapshot api_log].
  - destruct (worker_step_hist (exec acts s)) as [new [-> Hev]].
    apply disciplined_app; [| exact IH].
    eapply statement_events_disciplined. exact Hev.
  - apply (disciplined_app [Release; Acquire]); [split; reflexivity | exact IH].
  - apply (disciplined_app [Release; Acquire]); [split; reflexivity | exact IH].
  - apply (disciplined_app [Release; Acquire]); [split; reflexivity | exact IH].
Qed.

(** C9 (where the code departs from it).  [api_history] takes the
    lock, sends the chart request while holding it, and releases it
    afterwards: in the history it leaves, a network call lies inside a
    locked section, whatever the bot's state and the history before. *)
Theorem api_history_fetches_while_locked b h :
  (exists r,
      api_history b h
      = (r, Release
            :: HttpGet (COINGECKO_CHART_URL
                          (format_opt_str (SYMBOL_MAP !! upper (coin b)))
                          (lower (vs b)) (str_of_int 1))
            :: Acquire :: h))
  /\ fetches_while_locked (snd (api_history b h)) = true.
Proof.
  unfold api_history.
  destruct (get_history_always_requests (coin b) (vs b) 1 (Acquire :: h))
    as [r Hr].
  rewrite Hr. split; [exists r; reflexivity |].
  unfold fetches_while_locked. cbn [snd rev].
  rewrite <- !app_assoc. cbn [app].
  rewrite net_under_lock_app. cbn [net_under_lock is_network andb orb].
  apply orb_true_r.
Qed.

(* ================================================================ *)
(** * Further properties of the code *)
(* ================================================================ *)

Arguments _symbol_map : simpl never.
#[local] Set Warnings "-clear-no-such-hyp".

(** ** The symbol map *)

Lemma dict_of_pairs_snoc {A} (kvs : list (str * A)) kv :
  dict_of_pairs (kvs ++ [kv]) = <[fst kv := snd kv]> (dict_of_pairs kvs).
Proof. unfold dict_of_pairs. rewrite fold_left_app. reflexivity. Qed.

(** Looking a key up in the dict finds the last pair listed for it. *)
Lemma dict_of_pairs_lookup {A} (kvs : list (str * A)) k :
  dict_of_pairs kvs !! k = assoc k (rev kvs).
Proof.
  induction kvs as [|kv kvs IH] using rev_ind; [reflexivity |].
  rewrite dict_of_pairs_snoc, rev_app_distr. cbn [rev app assoc].
  destruct kv as [k' v]. cbn [fst snd]. unfold str_eqb.
  destruct (bool_decide (k = k')) eqn:E.
  - apply bool_decide_eq_true in E. subst k'. apply lookup_insert_eq.
  - apply bool_decide_eq_false in E.
    rewrite lookup_insert_ne by congruence. exact IH.
Qed.

Lemma symbol_entry_listed c p h :
  listed c p -> symbol_entry c h = (Ok (upper (fst p), snd p), h).
Proof.
  intros [ms [-> [Hs Hi]]].
  unfold symbol_entry, bind, lift, ret. cbn [getitem_key].
  rewrite Hs, Hi. reflexivity.
Qed.

Lemma symbol_entry_ok c kv h h' :
  symbol_entry c h = (Ok kv, h') ->
  h' = h /\ exists p, listed c p /\ kv = (upper (fst p), snd p).
Proof.
  unfold symbol_entry, bind, lift, ret.
  destruct c as [| | | | | |ms]; cbn [getitem_key]; try discriminate.
  destruct (assoc (utf8 "symbol") ms) as [sym|] eqn:Hs; [| discriminate].
  destruct sym as [| | | |s| |]; try discriminate.
  destruct (assoc (utf8 "id") ms) as [i|] eqn:Hi; [| discriminate].
  intros H. injection H as <- <-. split; [reflexivity |].
  exists (s, i). split; [| reflexivity]. exists ms. auto.
Qed.

Lemma symbol_entry_hist c h : snd (symbol_entry c h) = h.
Proof.
  unfold symbol_entry, bind, lift, ret.
  destruct (getitem_key c (utf8 "symbol")) as [sym|]; [| reflexivity].
  destruct sym; try reflexivity.
  destruct (getitem_key c (utf8 "id")); reflexivity.
Qed.

Lemma mapM_symbol_entry_hist cs h : snd (mapM symbol_entry cs h) = h.
Proof.
  induction cs as [|c cs IH]; [reflexivity |].
  cbn [mapM]. unfold bind at 1.
  pose proof (symbol_entry_hist c h) as Hs.
  destruct (symbol_entry c h) as [[kv|e] h1]; cbn [snd] in Hs; subst h1;
    [| reflexivity].
  unfold bind, ret.
  destruct (mapM symbol_entry cs h) as [[kvs|e] h2]; cbn [snd] in IH; subst h2;
    reflexivity.
Qed.

Lemma mapM_symbol_entry_listed cs ps h :
  Forall2 listed cs ps ->
  mapM symbol_entry cs h
  = (Ok (map (fun p => (upper (fst p), snd p)) ps), h).
Proof.
  induction 1 as [|c p cs ps Hc _ IH]; [reflexivity |].
  cbn [mapM map]. unfold bind at 1. rewrite (symbol_entry_listed c p h Hc).
  unfold bind, ret. rewrite IH. reflexivity.
Qed.

Lemma mapM_symbol_entry_ok cs kvs h h' :
  mapM symbol_entry cs h = (Ok kvs, h') ->
  exists ps, Forall2 listed cs ps
             /\ kvs = map (fun p => (upper (fst p), snd p)) ps.
Proof.
  revert kvs h h'. induction cs as [|c cs IH]; intros kvs h h'.
  - cbn [mapM]. unfold ret. intros H. injection H as <- _.
    exists []. split; [constructor | reflexivity].
  - cbn [mapM]. unfold bind at 1.
    destruct (symbol_entry c h) as [[kv|e] h1] eqn:Hc; [| discriminate].
    apply symbol_entry_ok in Hc as [-> [p [Hp ->]]].
    unfold bind, ret.
    destruct (mapM symbol_entry cs h) as [[kvs'|e] h2] eqn:Hm; [| discriminate].
    intros H. injection H as <- _.
    destruct (IH _ _ _ Hm) as [ps [Hps ->]].
    exists (p :: ps). split; [constructor; assumption | reflexivity].
Qed.

(** X1. [_symbol_map] sends exactly one request, for the coin
    listing, whatever comes back.  When the listing can be iterated
    and its elements all carry a string symbol and an id, the map sends
    each upper-cased symbol to the id of the last element listed with
    that symbol (earlier ones with the same ticker are lost), and
    symbols never listed are absent.  It is all-or-nothing: a map is
    built only from such a listing, and is then that map; a failed
    fetch raises the same exception. *)
Theorem symbol_map_last_listing_wins h :
  let h' := HttpGet COINGECKO_LIST_URL :: h in
  snd (_symbol_map h) = h'
  /\ (forall j cs ps,
      http_json world h COINGECKO_LIST_URL = Ok j ->
      iterate j = Ok cs ->
      Forall2 listed cs ps ->
      exists m, _symbol_map h = (Ok m, h')
                /\ forall k, m !! k
                             = assoc k (rev (map (fun p => (upper (fst p), snd p)) ps)))
  /\ (forall m h2,
      _symbol_map h = (Ok m, h2) ->
      exists j cs ps,
        http_json world h COINGECKO_LIST_URL = Ok j
        /\ iterate j = Ok cs
        /\ Forall2 listed cs ps
        /\ forall k, m !! k
                     = assoc k (rev (map (fun p => (upper (fst p), snd p)) ps)))
  /\ (forall e,
      http_json world h COINGECKO_LIST_URL = Raise e ->
      _symbol_map h = (Raise e, h')).
Proof.
  intros h'. unfold _symbol_map, requests_get_json, call.
  split; [| split; [| split]].
  - unfold bind at 1.
    destruct (http_json world h COINGECKO_LIST_URL) as [j|e]; [| reflexivity].
    unfold bind at 1. unfold lift.
    destruct (iterate j) as [cs|e]; [| reflexivity].
    unfold bind, ret.
    pose proof (mapM_symbol_entry_hist cs (HttpGet COINGECKO_LIST_URL :: h))
      as Hm.
    destruct (mapM symbol_entry cs (HttpGet COINGECKO_LIST_URL :: h))
      as [[kvs|e] h3]; exact Hm.
  - intros j cs ps Hw Hi Hl. unfold bind at 1. rewrite Hw.
    unfold bind at 1. unfold lift. rewrite Hi. unfold bind, ret.
    rewrite (mapM_symbol_entry_listed cs ps _ Hl).
    eexists. split; [reflexivity |]. intros k. apply dict_of_pairs_lookup.
  - intros m h2. unfold bind at 1.
    destruct (http_json world h COINGECKO_LIST_URL) as [j|e]; [| discriminate].
    unfold bind at 1. unfold lift.
    destruct (iterate j) as [cs|e] eqn:Hi; [| discriminate].
    unfold bind, ret.
    destruct (mapM symbol_entry cs (HttpGet COINGECKO_LIST_URL :: h))
      as [[kvs|e] h3] eqn:Hm; [| discriminate].
    intros H. injection H as <- _.
    destruct (mapM_symbol_entry_ok _ _ _ _ Hm) as [ps [Hps ->]].
    exists j, cs, ps. split; [reflexivity |]. split; [exact Hi |].
    split; [exact Hps |]. intros k. apply dict_of_pairs_lookup.
  - intros e Hw. unfold bind at 1. rewrite Hw. reflexivity.
Qed.

(** ** Counting the calls *)

Lemma calls_ret {A} (a : A) : calls 0 (ret a).
Proof. intros h. exists []. repeat split; [constructor | reflexivity]. Qed.

Lemma calls_raise {A} e : calls 0 (@raise A e).
Proof. intros h. exists []. repeat split; [constructor | reflexivity]. Qed.

Lemma calls_lift {A} (r : result A) : calls 0 (lift r).
Proof. intros h. exists []. repeat split; [constructor | reflexivity]. Qed.

Lemma calls_call {A} ev (answer : history -> result A) :
  network ev -> calls 1 (call ev answer).
Proof.
  intros Hev h. exists [ev]. repeat split; [| reflexivity].
  constructor; [exact Hev | constructor].
Qed.

Lemma calls_weaken {A} n n' (m : IO A) :
  (n <= n')%nat -> calls n m -> calls n' m.
Proof.
  intros Hle Hm h. destruct (Hm h) as [new [E [F L]]].
  exists new. repeat split; [exact E | exact F | lia].
Qed.

Lemma calls_bind {A B} n1 n2 (m : IO A) (k : A -> IO B) :
  calls n1 m -> (forall a, calls n2 (k a)) -> calls (n1 + n2) (bind m k).
Proof.
  intros Hm Hk h. unfold bind.
  destruct (Hm h) as [new1 [E1 [F1 L1]]].
  destruct (m h) as [[a|e] h1]; cbn [snd] in E1; subst h1.
  - destruct (Hk a (new1 ++ h)) as [new2 [E2 [F2 L2]]].
    exists (new2 ++ new1). rewrite E2, app_assoc. repeat split.
    + apply Forall_app. split; assumption.
    + rewrite length_app. lia.
  - exists new1. repeat split; [exact F1 | lia].
Qed.

Lemma calls_try_except {A} n1 n2 (m : IO A) (handler : exn -> IO A) :
  calls n1 m -> (forall e, calls n2 (handler e)) ->
  calls (n1 + n2) (try_except m handler).
Proof.
  intros Hm Hk h. unfold try_except.
  destruct (Hm h) as [new1 [E1 [F1 L1]]].
  destruct (m h) as [[a|e] h1]; cbn [snd] in E1; subst h1.
  - exists new1. repeat split; [exact F1 | lia].
  - destruct (Hk e (new1 ++ h)) as [new2 [E2 [F2 L2]]].
    exists (new2 ++ new1). rewrite E2, app_assoc. repeat split.
    + apply Forall_app. split; assumption.
    + rewrite length_app. lia.
Qed.

Lemma calls_mapM_quiet {A B} (f : A -> IO B) l :
  (forall a, calls 0 (f a)) -> calls 0 (mapM f l).
Proof.
  intros Hf. induction l as [|a l IH]; cbn [mapM].
  - apply calls_ret.
  - apply (calls_bind 0 0); [apply Hf |]. intros b.
    apply (calls_bind 0 0); [exact IH |]. intros bs. apply calls_ret.
Qed.

Lemma get_price_calls sym v : calls 1 (get_price sym v).
Proof.
  unfold get_price, requests_get_json.
  destruct (SYMBOL_MAP !! upper sym) as [[|c cid]|].
  - apply (calls_weaken 0); [lia | apply calls_raise].
  - apply (calls_bind 1 0); [apply calls_call; reflexivity |]. intros j.
    apply (calls_bind 0 0); [apply calls_lift |]. intros a.
    apply (calls_bind 0 0); [apply calls_lift |]. intros b.
    apply calls_lift.
  - apply (calls_weaken 0); [lia | apply calls_raise].
Qed.

Lemma read_point_calls p : calls 0 (read_point p).
Proof.
  unfold read_point.
  apply (calls_bind 0 0); [apply calls_lift |]. intros t0.
  apply (calls_bind 0 0); [apply calls_lift |]. intros t.
  apply (calls_bind 0 0); [apply calls_lift |]. intros x0.
  apply (calls_bind 0 0); [apply calls_lift |]. intros x.
  apply calls_ret.
Qed.

Lemma get_history_calls sym v days : calls 1 (get_history sym v days).
Proof.
  unfold get_history, requests_get_json.
  apply (calls_bind 1 0); [apply calls_call; reflexivity |]. intros data.
  apply (calls_bind 0 0); [apply calls_lift |]. intros prices.
  apply (calls_bind 0 0); [apply calls_lift |]. intros ps.
  apply calls_mapM_quiet. apply read_point_calls.
Qed.

Lemma latest_news_calls limit : calls 1 (latest_news limit).
Proof.
  unfold latest_news.
  apply (calls_bind 1 0); [apply calls_call; reflexivity |]. intros es.
  apply calls_mapM_quiet. intros e. unfold read_title.
  destruct (title e); [apply calls_ret | apply calls_raise].
Qed.

Lemma get_prediction_calls sym v :
  calls (if str_eqb (upper v) (utf8 "USD") then 1 else 3) (get_prediction sym v).
Proof.
  unfold get_prediction, requests_get_json.
  replace (if str_eqb (upper v) (utf8 "USD") then 1 else 3)%nat
    with ((1 + (if str_eqb (upper v) (utf8 "USD") then 0 else 2)) + 0)%nat
    by (destruct (str_eqb _ _); reflexivity).
  apply calls_try_except; [| intros e; apply calls_ret].
  apply calls_bind; [apply calls_call; reflexivity |]. intros j.
  apply (calls_bind 0); [apply calls_lift |]. intros a.
  apply (calls_bind 0); [apply calls_lift |]. intros b.
  apply (calls_bind 0); [apply calls_lift |]. intros pred_usd.
  destruct (str_eqb (upper v) (utf8 "USD")).
  - apply calls_ret.
  - apply (calls_bind 1 1); [apply get_price_calls |]. intros cur_vs.
    apply (calls_bind 1 0); [apply get_price_calls |]. intros cur_usd.
    apply calls_ret.
Qed.

Lemma groq_decision_calls news price prediction recent c v :
  calls (if key_missing GROQ_API_KEY then 0 else 1)
    (groq_decision news price prediction recent c v).
Proof.
  unfold groq_decision. destruct (key_missing GROQ_API_KEY).
  - apply calls_ret.
  - apply (calls_bind 1 0); [apply calls_call; reflexivity |]. intros choices.
    apply (calls_bind 0 0); [apply calls_lift |]. intros content.
    apply (calls_bind 0 0); [apply calls_lift |]. intros ai_raw.
    apply (calls_bind 0 0); [apply calls_lift |]. intros first.
    apply calls_ret.
Qed.

Lemma gather_calls b :
  calls (3 + (if str_eqb (upper (vs b)) (utf8 "USD") then 1 else 3)
           + (if key_missing GROQ_API_KEY then 0 else 1))
    (gather b).
Proof.
  unfold gather.
  replace (3 + (if str_eqb (upper (vs b)) (utf8 "USD") then 1 else 3)
             + (if key_missing GROQ_API_KEY then 0 else 1))%nat
    with (1 + (1 + (1 + ((if str_eqb (upper (vs b)) (utf8 "USD") then 1 else 3)
                           + ((if key_missing GROQ_API_KEY then 0 else 1) + 0)))))%nat
    by lia.
  apply calls_bind; [apply get_price_calls | intros price].
  apply calls_bind; [apply get_history_calls | intros hs].
  apply calls_bind; [apply latest_news_calls | intros news].
  apply calls_bind; [apply get_prediction_calls | intros pred].
  apply calls_bind; [apply groq_decision_calls | intros [[d p] a]].
  apply calls_ret.
Qed.

Lemma network_calls_app l1 l2 :
  network_calls (l1 ++ l2) = (network_calls l1 + network_calls l2)%nat.
Proof. unfold network_calls. rewrite List.filter_app, length_app. reflexivity. Qed.

Lemma network_calls_all l : Forall network l -> network_calls l = length l.
Proof.
  unfold network_calls. induction 1 as [|ev l Hev _ IH]; [reflexivity |].
  cbn [List.filter]. rewrite Hev. cbn [length]. rewrite IH. reflexivity.
Qed.

Lemma network_calls_local l : Forall local_io l -> network_calls l = 0%nat.
Proof.
  unfold network_calls. induction 1 as [|ev l Hev _ IH]; [reflexivity |].
  destruct ev; try destruct Hev; cbn [List.filter is_network]; exact IH.
Qed.

(** *** Which calls, and in which order *)

Lemma requests_quiet {A} E (m : IO A) : calls 0 m -> requests E m.
Proof.
  intros Hm h. destruct (Hm h) as [new [E1 [F L]]].
  destruct new; [| cbn in L; lia].
  exists [], []. split; [exact E1 |]. split; [constructor |].
  apply sublist_nil_l.
Qed.

Lemma requests_call {A} ev (answer : history -> result A) :
  network ev -> requests (fun _ => [ev]) (call ev answer).
Proof.
  intros Hev h. exists [ev], []. split; [reflexivity |].
  split; [constructor; [exact Hev | constructor] | reflexivity].
Qed.

Lemma requests_bind {A B} E1 E2 (m : IO A) (k : A -> IO B) :
  requests (fun _ => E1) m -> (forall a, requests E2 (k a)) ->
  requests (fun p => E1 ++ E2 p) (bind m k).
Proof.
  intros Hm Hk h. unfold bind.
  destruct (Hm h) as [new1 [p1 [E [F S1]]]].
  destruct (m h) as [[a|e] h1]; cbn [snd] in E; subst h1.
  - destruct (Hk a (new1 ++ h)) as [new2 [p2 [E [F2 S2]]]].
    exists (new2 ++ new1), p2. rewrite E, app_assoc.
    split; [reflexivity |]. split; [apply Forall_app; split; assumption |].
    rewrite rev_app_distr. apply sublist_app; assumption.
  - exists new1, []. split; [reflexivity |]. split; [exact F |].
    apply sublist_inserts_r. exact S1.
Qed.

Lemma requests_quiet_bind {A B} E (m : IO A) (k : A -> IO B) :
  calls 0 m -> (forall a, requests E (k a)) -> requests E (bind m k).
Proof.
  intros Hm Hk.
  exact (requests_bind [] E m k (requests_quiet _ m Hm) Hk).
Qed.

Lemma requests_try_except {A} E (m : IO A) (handler : exn -> IO A) :
  requests E m -> (forall e, calls 0 (handler e)) ->
  requests E (try_except m handler).
Proof.
  intros Hm Hk h. unfold try_except.
  destruct (Hm h) as [new1 [p1 [E1 [F S1]]]].
  destruct (m h) as [[a|e] h1]; cbn [snd] in E1; subst h1.
  - exists new1, p1. auto.
  - destruct (Hk e (new1 ++ h)) as [new2 [E2 [F2 L2]]].
    destruct new2; [| cbn in L2; lia].
    exists new1, p1. rewrite E2. auto.
Qed.

Lemma get_price_requests sym v :
  requests
    (fun _ => [price_request (default [] (SYMBOL_MAP !! upper sym)) (lower v)])
    (get_price sym v).
Proof.
  unfold get_price, requests_get_json.
  destruct (SYMBOL_MAP !! upper sym) as [[|c cid]|]; cbn [default].
  - apply requests_quiet, calls_raise.
  - apply (requests_bind [_] (fun _ => [])); [apply requests_call; reflexivity |].
    intros j. apply requests_quiet.
    apply (calls_bind 0 0); [apply calls_lift |]. intros a.
    apply (calls_bind 0 0); [apply calls_lift |]. intros b.
    apply calls_lift.
  - apply requests_quiet, calls_raise.
Qed.

Lemma get_history_requests sym v days :
  requests
    (fun _ => [HttpGet (COINGECKO_CHART_URL
                          (format_opt_str (SYMBOL_MAP !! upper sym))
                          (lower v) (str_of_int days))])
    (get_history sym v days).
Proof.
  unfold get_history, requests_get_json. cbv zeta.
  apply (requests_bind [_] (fun _ => [])); [apply requests_call; reflexivity |].
  intros data. apply requests_quiet.
  apply (calls_bind 0 0); [apply calls_lift |]. intros prices.
  apply (calls_bind 0 0); [apply calls_lift |]. intros ps.
  apply calls_mapM_quiet. apply read_point_calls.
Qed.

Lemma latest_news_requests limit :
  requests (fun _ => [FeedParse COINDESK_RSS]) (latest_news limit).
Proof.
  unfold latest_news.
  apply (requests_bind [_] (fun _ => [])); [apply requests_call; reflexivity |].
  intros es. apply requests_quiet.
  apply calls_mapM_quiet. intros e. unfold read_title.
  destruct (title e); [apply calls_ret | apply calls_raise].
Qed.

Lemma get_prediction_requests sym v :
  requests
    (fun _ =>
       [HttpGet (COINCODEx_PRED_URL (lower sym))]
       ++ (if str_eqb (upper v) (utf8 "USD") then []
           else [price_request (default [] (SYMBOL_MAP !! upper sym)) (lower v);
                 price_request (default [] (SYMBOL_MAP !! upper sym))
                   (lower (utf8 "USD"))]))
    (get_prediction sym v).
Proof.
  unfold get_prediction, requests_get_json.
  apply requests_try_except; [| intros e; apply calls_ret].
  apply (requests_bind [_] (fun _ => _)); [apply requests_call; reflexivity |].
  intros j.
  apply requests_quiet_bind; [apply calls_lift |]. intros a.
  apply requests_quiet_bind; [apply calls_lift |]. intros b.
  apply requests_quiet_bind; [apply calls_lift |]. intros pred_usd.
  destruct (str_eqb (upper v) (utf8 "USD")).
  - apply requests_quiet, calls_ret.
  - apply (requests_bind [_] (fun _ => [_])); [apply get_price_requests |].
    intros cur_vs.
    apply (requests_bind [_] (fun _ => [])); [apply get_price_requests |].
    intros cur_usd. apply requests_quiet, calls_ret.
Qed.

Lemma groq_decision_requests news price prediction recent c v :
  requests
    (fun prompt => if key_missing GROQ_API_KEY then []
                   else [GroqChat GROQ_API_KEY MODEL prompt])
    (groq_decision news price prediction recent c v).
Proof.
  intros h. destruct (groq_decision_calls news price prediction recent c v h)
    as [new [E [F L]]].
  rewrite groq_decision_unfold in *. cbv zeta in *.
  destruct (key_missing GROQ_API_KEY).
  - destruct new; [| cbn in L; lia].
    exists [], []. split; [exact E |]. split; [constructor | constructor].
  - exists [GroqChat GROQ_API_KEY MODEL
              (build_prompt news price prediction recent c v)],
      (build_prompt news price prediction recent c v).
    split; [| split; [repeat constructor | reflexivity]].
    destruct (groq_choices world h GROQ_API_KEY MODEL _) as [[|[s|] ?]|e];
      cbn [snd]; try reflexivity.
    destruct (split_ws (strip s)); reflexivity.
Qed.

Lemma requests_ext {A} E E' (m : IO A) :
  (forall p, E p = E' p) -> requests E m -> requests E' m.
Proof.
  intros HE Hm h. destruct (Hm h) as [new [p [E1 [F S]]]].
  exists new, p. rewrite <- HE. auto.
Qed.

Lemma requests_then_quiet {A B} E (m : IO A) (k : A -> IO B) :
  requests E m -> (forall a, calls 0 (k a)) -> requests E (bind m k).
Proof.
  intros Hm Hk h. unfold bind.
  destruct (Hm h) as [new1 [p1 [E1 [F S1]]]].
  destruct (m h) as [[a|e] h1]; cbn [snd] in E1; subst h1.
  - destruct (Hk a (new1 ++ h)) as [new2 [E2 [F2 L2]]].
    destruct new2; [| cbn in L2; lia].
    exists new1, p1. rewrite E2. auto.
  - exists new1, p1. auto.
Qed.

Lemma gather_requests b : requests (cycle_requests b) (gather b).
Proof.
  unfold gather, cycle_requests. cbv zeta.
  apply (requests_bind [_] (fun p => [_; _; _] ++ _ ++ _));
    [apply get_price_requests | intros price].
  apply (requests_bind [_] (fun p => [_; _] ++ _ ++ _));
    [apply get_history_requests | intros hs].
  apply (requests_bind [_] (fun p => [_] ++ _ ++ _));
    [apply latest_news_requests | intros news].
  eapply requests_ext; [intros p; symmetry; apply app_assoc |].
  apply (requests_bind (_ ++ _) (fun p => _));
    [apply get_prediction_requests | intros pred].
  apply requests_then_quiet; [apply groq_decision_requests |].
  intros [[d p] a]. apply calls_ret.
Qed.

Lemma requests_of_app l1 l2 :
  requests_of (l1 ++ l2) = requests_of l2 ++ requests_of l1.
Proof. unfold requests_of. rewrite List.filter_app, rev_app_distr. reflexivity. Qed.

Lemma requests_of_all l : Forall network l -> requests_of l = rev l.
Proof.
  unfold requests_of. intros H. f_equal.
  induction H as [|ev l Hev _ IH]; [reflexivity |].
  cbn [List.filter]. rewrite Hev, IH. reflexivity.
Qed.

Lemma requests_of_local l : Forall local_io l -> requests_of l = [].
Proof.
  unfold requests_of. intros H.
  replace (List.filter is_network l) with (@nil event); [reflexivity |].
  induction H as [|ev l Hev _ IH]; [reflexivity |].
  destruct ev; try destruct Hev; cbn [List.filter is_network]; exact IH.
Qed.

(** X2. The calls to the network of one iteration of the loop, in
    program order, are picked in order from this list: the price
    request for the resolved coin id and the lower-cased quote, the
    market-chart request, the parse of the CoinDesk feed, the CoinCodex
    forecast request, for a quote other than USD the two price
    requests of the conversion (quote, then USD), and one chat with
    the configured key and model unless the key is missing.  So each
    is made at most once and in that order, and an iteration makes at
    most seven calls: four, two more when the quote is not USD, one
    more when there is a key. *)
Theorem cycle_request_budget s :
  at_pc s = L147 ->
  exists new prompt,
    hist (run_cycle s) = new ++ hist s
    /\ requests_of new `sublist_of` cycle_requests (bot s) prompt
    /\ (network_calls new
        <= 3 + (if str_eqb (upper (vs (bot s))) (utf8 "USD") then 1 else 3)
           + (if key_missing GROQ_API_KEY then 0 else 1))%nat
    /\ (network_calls new <= 7)%nat.
Proof.
  intros Hpc. rewrite (run_cycle_gather s Hpc).
  destruct (gather_requests (bot s) (hist s)) as [newg [prompt [E [F S]]]].
  assert (L : (length newg
               <= 3 + (if str_eqb (upper (vs (bot s))) (utf8 "USD") then 1 else 3)
                  + (if key_missing GROQ_API_KEY then 0 else 1))%nat).
  { apply sublist_length in S. rewrite length_rev in S.
    unfold cycle_requests in S. cbv zeta in S. rewrite !length_app in S.
    destruct (str_eqb _ _), (key_missing _); cbn [length] in S; lia. }
  assert (L7 : (length newg <= 7)%nat).
  { destruct (str_eqb _ _), (key_missing _); lia. }
  destruct (gather (bot s) (hist s)) as [[g|e] h']; cbn [snd] in E; subst h'.
  - destruct (publish_hist g (bot s) (newg ++ hist s)) as [mid [Ep Hmid]].
    unfold after_sleep. cbn [hist]. rewrite Ep.
    exists ([Sleep (Z.max 5 (interval (fst (publish g (bot s) (newg ++ hist s)))));
             Release] ++ mid ++ [UtcNow; Acquire] ++ newg), prompt.
    assert (Hloc : Forall local_io mid).
    { destruct Hmid as [-> | [e ->]]; repeat constructor. }
    split; [cbn [app]; rewrite <- !app_assoc; reflexivity |].
    split.
    + rewrite !requests_of_app, (requests_of_local mid Hloc),
        (requests_of_all newg F). cbn. rewrite !app_nil_r. exact S.
    + rewrite !network_calls_app, (network_calls_local mid Hloc),
        (network_calls_all newg F).
      cbn. split; lia.
  - unfold after_sleep. cbn [hist].
    exists ([Sleep (Z.max 5 (interval (bot s))); PrintBot e] ++ newg), prompt.
    split; [reflexivity |]. split.
    + rewrite requests_of_app, (requests_of_all newg F). cbn.
      rewrite app_nil_r. exact S.
    + rewrite network_calls_app, (network_calls_all newg F). cbn. split; lia.
Qed.

(** ** The market data gateway, continued *)

(** X3. [get_price] makes at most one request.  It returns a price only
    for a symbol the map resolves to a non-empty id, after exactly one
    GET of the simple-price URL carrying that id and the lower-cased
    quote; and the price is the number found under [id] and then under
    the lower-cased quote in the reply, unchanged when it is a float. *)
Theorem get_price_one_request sym v h :
  let url cid := COINGECKO_PRICE_URL ++ utf8 "?ids=" ++ cid
                   ++ utf8 "&vs_currencies=" ++ lower v in
  calls 1 (get_price sym v)
  /\ (forall x h',
      get_price sym v h = (Ok x, h') ->
      exists cid j a b,
        SYMBOL_MAP !! upper sym = Some cid /\ cid <> []
        /\ h' = HttpGet (url cid) :: h
        /\ http_json world h (url cid) = Ok j
        /\ getitem_key j cid = Ok a
        /\ getitem_key a (lower v) = Ok b
        /\ py_float b = Ok x)
  /\ (forall cid j a x,
      SYMBOL_MAP !! upper sym = Some cid -> cid <> [] ->
      http_json world h (url cid) = Ok j ->
      getitem_key j cid = Ok a ->
      getitem_key a (lower v) = Ok (JFloat x) ->
      get_price sym v h = (Ok x, HttpGet (url cid) :: h)).
Proof.
  intros url. split; [apply get_price_calls |]. split.
  - intros x h'. unfold get_price, requests_get_json, bind, call, lift.
    destruct (SYMBOL_MAP !! upper sym) as [[|c cid]|]; try discriminate.
    fold (url (c :: cid)).
    destruct (http_json world h (url (c :: cid))) as [j|] eqn:Hj; [| discriminate].
    destruct (getitem_key j (c :: cid)) as [a|] eqn:Ha; [| discriminate].
    destruct (getitem_key a (lower v)) as [b|] eqn:Hb; [| discriminate].
    destruct (py_float b) as [y|] eqn:Hy; [| discriminate].
    intros H. injection H as <- <-.
    exists (c :: cid), j, a, b. repeat split; try assumption. discriminate.
  - intros cid j a x Hm Hne Hj Ha Hb.
    unfold get_price, requests_get_json, bind, call, lift. rewrite Hm.
    destruct cid as [|c cid]; [contradiction |]. fold (url (c :: cid)).
    rewrite Hj, Ha, Hb. reflexivity.
Qed.

Lemma read_point_chart_point p h : read_point (chart_point p) h = (Ok p, h).
Proof. destruct p as [t x]. reflexivity. Qed.

Lemma mapM_read_point_chart pts h :
  mapM read_point (map chart_point pts) h = (Ok pts, h).
Proof.
  induction pts as [|p pts IH]; [reflexivity |].
  cbn [map mapM]. unfold bind at 1. rewrite read_point_chart_point.
  unfold bind, ret. rewrite IH. reflexivity.
Qed.

Lemma read_point_pure p h : read_point p h = (fst (read_point p []), h).
Proof.
  unfold read_point, bind, lift, ret.
  destruct (getitem_idx p 0) as [t0|]; [| reflexivity].
  destruct (py_int t0); [| reflexivity].
  destruct (getitem_idx p 1) as [x0|]; [| reflexivity].
  destruct (py_float x0); reflexivity.
Qed.

Lemma mapM_read_point_fails ps p e h :
  In p ps -> fst (read_point p []) = Raise e ->
  is_ok (fst (mapM read_point ps h)) = false.
Proof.
  intros Hin He. induction ps as [|q ps IH]; [contradiction |].
  cbn [mapM]. unfold bind at 1. rewrite (read_point_pure q h).
  destruct (fst (read_point q [])) as [b|e'] eqn:Hq; [| reflexivity].
  destruct Hin as [-> | Hin]; [congruence |].
  unfold bind, ret. specialize (IH Hin).
  destruct (mapM read_point ps h) as [[bs|e''] h2]; [discriminate IH | reflexivity].
Qed.

(** X4. When the chart reply is an object whose ["prices"] member is an
    array of [[t, x]] points, [get_history] returns exactly those
    points, as many and in the same order; when the member is missing it
    returns the empty list; and it is all-or-nothing: one point that
    cannot be read (too short, a null, ...) makes the whole call raise,
    whatever the other points are. *)
Theorem get_history_points sym v days h :
  let url := COINGECKO_CHART_URL (format_opt_str (SYMBOL_MAP !! upper sym))
               (lower v) (str_of_int days) in
  (forall ms pts,
      http_json world h url = Ok (JObj ms) ->
      assoc (utf8 "prices") ms = Some (JArr (map chart_point pts)) ->
      get_history sym v days h = (Ok pts, HttpGet url :: h))
  /\ (forall ms,
      http_json world h url = Ok (JObj ms) ->
      assoc (utf8 "prices") ms = None ->
      get_history sym v days h = (Ok [], HttpGet url :: h))
  /\ (forall ms ps p e,
      http_json world h url = Ok (JObj ms) ->
      assoc (utf8 "prices") ms = Some (JArr ps) ->
      In p ps -> fst (read_point p []) = Raise e ->
      is_ok (fst (get_history sym v days h)) = false).
Proof.
  intros url. split; [| split].
  - intros ms pts Hj Hp.
    unfold get_history, requests_get_json, bind, call, lift. fold url.
    rewrite Hj. cbn [dict_get_or_empty]. rewrite Hp. cbn [iterate].
    apply mapM_read_point_chart.
  - intros ms Hj Hp.
    unfold get_history, requests_get_json, bind, call, lift. fold url.
    rewrite Hj. cbn [dict_get_or_empty]. rewrite Hp. reflexivity.
  - intros ms ps p e Hj Hp Hin He.
    unfold get_history, requests_get_json, bind, call, lift. fold url.
    rewrite Hj. cbn [dict_get_or_empty]. rewrite Hp. cbn [iterate].
    eapply mapM_read_point_fails; eassumption.
Qed.

Lemma last_n_length {A} n (l : list A) :
  length (last_n n l) = Nat.min n (length l).
Proof. unfold last_n. rewrite length_skipn. lia. Qed.

Lemma last_n_suffix {A} n (l : list A) :
  firstn (length l - n) l ++ last_n n l = l.
Proof. unfold last_n. apply firstn_skipn. Qed.

(** X5. Of the history fetched at line 148 the cycle keeps the last six
    points, or all of them when there are fewer, in their order; and
    the prices of exactly these points are the recent prices the
    decision engine is called with three statements later: the
    iteration goes on as that call decides, and the request text built
    and sent carries these prices. *)
Theorem recent_window s price hs h1 news h2 pred h3 :
  at_pc s = L148 price ->
  get_history (coin (bot s)) (vs (bot s)) 1 (hist s) = (Ok hs, h1) ->
  latest_news 5 h1 = (Ok news, h2) ->
  get_prediction (coin (bot s)) (vs (bot s)) h2 = (Ok pred, h3) ->
  let recent := map snd (last_n 6 hs) in
  let P := build_prompt news price pred recent (coin (bot s)) (vs (bot s)) in
  let asked :=
    groq_decision news price pred recent (coin (bot s)) (vs (bot s)) h3 in
  length recent = Nat.min 6 (length hs)
  /\ firstn (length hs - 6) (map snd hs) ++ recent = map snd hs
  /\ at_pc (worker_step s) = L149 price (last_n 6 hs)
  /\ exec [Worker; Worker; Worker; Worker] s
     = {| bot := bot s;
          at_pc := match fst asked with
                   | Ok (decision, prompt, ai_raw) =>
                       L154 {| g_price := price; g_pred := pred;
                               g_decision := decision; g_prompt := prompt;
                               g_ai_raw := ai_raw; g_news := news |}
                   | Raise e => L172 e
                   end;
          hist := snd asked;
          cycles_ok := cycles_ok s |}
  /\ (forall d p a, fst asked = Ok (d, p, a) -> p = P)
  /\ (key_missing GROQ_API_KEY = false ->
      snd asked = GroqChat GROQ_API_KEY MODEL P :: h3).
Proof.
  intros Hpc Hg Hn Hp recent P asked.
  destruct s as [b p h n]. cbn [bot at_pc hist cycles_ok] in *. subst p.
  assert (S1 : worker_step {| bot := b; at_pc := L148 price; hist := h;
                               cycles_ok := n |}
               = {| bot := b; at_pc := L149 price (last_n 6 hs); hist := h1;
                    cycles_ok := n |}).
  { unfold worker_step. cbn [at_pc bot hist cycles_ok].
    rewrite worker_step_attempt, Hg. reflexivity. }
  assert (S2 : worker_step {| bot := b; at_pc := L149 price (last_n 6 hs);
                               hist := h1; cycles_ok := n |}
               = {| bot := b; at_pc := L150 price (last_n 6 hs) news;
                    hist := h2; cycles_ok := n |}).
  { unfold worker_step. cbn [at_pc bot hist cycles_ok].
    rewrite worker_step_attempt, Hn. reflexivity. }
  assert (S3 : worker_step {| bot := b; at_pc := L150 price (last_n 6 hs) news;
                               hist := h2; cycles_ok := n |}
               = {| bot := b; at_pc := L151 price (last_n 6 hs) news pred;
                    hist := h3; cycles_ok := n |}).
  { unfold worker_step. cbn [at_pc bot hist cycles_ok].
    rewrite worker_step_attempt, Hp. reflexivity. }
  split; [| split; [| split; [| split; [| split]]]].
  - subst recent. rewrite length_map. apply last_n_length.
  - subst recent. unfold last_n. rewrite <- skipn_map, <- (length_map snd hs).
    apply firstn_skipn.
  - rewrite S1. reflexivity.
  - unfold exec. cbn [fold_left step]. rewrite S1, S2, S3.
    unfold worker_step. cbn [at_pc bot hist cycles_ok].
    rewrite worker_step_attempt. fold recent. fold asked.
    destruct asked as [[[[d pr] a]|e] h4]; reflexivity.
  - intros d p a. subst asked. rewrite groq_decision_unfold. cbv zeta.
    fold P. destruct (key_missing GROQ_API_KEY); cbn [fst].
    + intros H. injection H as _ <- _. reflexivity.
    + destruct (groq_choices world h3 GROQ_API_KEY MODEL P) as [[|[t|] ?]|e];
        cbn [fst]; try (intros H; discriminate H).
      destruct (split_ws (strip t)); cbn [fst]; [intros H; discriminate H |].
      intros H. injection H as _ <- _. reflexivity.
  - intros Hk. subst asked. rewrite groq_decision_unfold. cbv zeta.
    fold P. rewrite Hk.
    destruct (groq_choices world h3 GROQ_API_KEY MODEL P) as [[|[t|] ?]|e];
      try reflexivity.
    destruct (split_ws (strip t)); reflexivity.
Qed.

(** ** The worker's statements and the history *)

Lemma worker_step_events s :
  hist (worker_step s)
  = match at_pc s with
    | L147 => snd (get_price (coin (bot s)) (vs (bot s)) (hist s))
    | L148 _ => snd (get_history (coin (bot s)) (vs (bot s)) 1 (hist s))
    | L149 _ _ => snd (latest_news 5 (hist s))
    | L150 _ _ _ => snd (get_prediction (coin (bot s)) (vs (bot s)) (hist s))
    | L151 price hs news pred =>
        snd (groq_decision news price pred (map snd hs)
               (coin (bot s)) (vs (bot s)) (hist s))
    | L154 g => snd (publish g (bot s) (hist s))
    | L172 e => PrintBot e :: hist s
    | L173 => Sleep (Z.max 5 (interval (bot s))) :: hist s
    | Ended _ => hist s
    end.
Proof.
  unfold worker_step.
  destruct (at_pc s); try reflexivity; cbv zeta; rewrite worker_step_attempt;
    match goal with |- context [match ?m with _ => _ end] =>
      destruct m as [[a|e] h'] end; try reflexivity.
Qed.


(** What one action adds to the history, whatever the predicate [P]
    the helpers' events satisfy. *)
Lemma step_adds (P : event -> Prop) a s :
  (forall sym v, adds P (get_price sym v)) ->
  (forall sym v days, adds P (get_history sym v days)) ->
  (forall limit, adds P (latest_news limit)) ->
  (forall sym v, adds P (get_prediction sym v)) ->
  (forall news price pred recent c v,
      adds P (groq_decision news price pred recent c v)) ->
  P Acquire -> P Release -> P UtcNow ->
  (forall e, P (PrintBot e)) -> (forall e, P (PrintSaveError e)) ->
  P (Sleep (Z.max 5 (interval (bot s)))) ->
  (forall content, P (WriteFile (log_file (bot s)) content)) ->
  exists new, hist (step a s) = new ++ hist s /\ Forall P new.
Proof.
  intros Hprice Hhist Hnews Hpred Hgroq Hacq Hrel Hnow Hprint Hsave Hsleep Hwrite.
  destruct a; cbn [step hist snd snapshot api_log configure].
  - rewrite worker_step_events. destruct (at_pc s).
    + apply Hprice.
    + apply Hhist.
    + apply Hnews.
    + apply Hpred.
    + apply Hgroq.
    + destruct (publish_hist g (bot s) (hist s)) as [mid [E Hmid]].
      rewrite E. exists (Release :: mid ++ [UtcNow; Acquire]). split.
      * cbn [app]. rewrite <- app_assoc. reflexivity.
      * constructor; [exact Hrel |]. apply Forall_app. split.
        -- destruct Hmid as [-> | [e ->]]; repeat constructor;
             first [apply Hwrite | apply Hsave].
        -- repeat constructor; assumption.
    + exists [PrintBot exc]. split; [reflexivity |]. repeat constructor. apply Hprint.
    + exists [Sleep (Z.max 5 (interval (bot s)))]. split; [reflexivity |].
      repeat constructor. exact Hsleep.
    + exists []. split; [reflexivity | constructor].
  - exists [Release; Acquire]. split; [reflexivity |]. repeat constructor; assumption.
  - exists [Release; Acquire]. split; [reflexivity |]. repeat constructor; assumption.
  - exists [Release; Acquire]. split; [reflexivity |]. repeat constructor; assumption.
  - unfold api_history.
    destruct (Hhist (coin (bot s)) (vs (bot s)) 1 (Acquire :: hist s))
      as [new [E F]].
    destruct (get_history _ _ _ _) as [r h']. cbn [snd] in *. subst h'.
    exists (Release :: new ++ [Acquire]). split.
    + cbn [app]. rewrite <- app_assoc. reflexivity.
    + constructor; [exact Hrel |]. apply Forall_app. split; [exact F |].
      repeat constructor. exact Hacq.
Qed.

(** ** The log over whole runs *)

Lemma step_log a s :
  log (bot (step a s)) = log (bot s)
  \/ exists g, a = Worker /\ at_pc s = L154 g
               /\ log (bot (step a s))
                  = log (bot s) ++ [_snap (bot (step a s))].
Proof.
  rewrite step_bot.
  destruct a; try (left; destruct (at_pc s); reflexivity).
  destruct (at_pc s) eqn:Hpc; try (left; reflexivity).
  right. exists g. rewrite publish_bot. cbn [log _snap]. auto.
Qed.

Lemma step_log_file a s : log_file (bot (step a s)) = log_file (bot s).
Proof.
  rewrite step_bot.
  destruct a; try (destruct (at_pc s); reflexivity).
Qed.

Lemma exec_cons a acts s : exec (a :: acts) s = exec acts (step a s).
Proof. reflexivity. Qed.

(** One action appends to the log exactly what it publishes, and
    counts it. *)
Lemma step_published a s :
  log (bot (step a s)) = log (bot s) ++ published [a] s
  /\ cycles_ok (step a s) = (cycles_ok s + length (published [a] s))%nat.
Proof.
  rewrite step_bot, step_cycles_ok. cbn [published].
  destruct a, (at_pc s); cbn [app length]; rewrite ?app_nil_r, ?publish_bot;
    cbn [log]; (split; [reflexivity | lia]).
Qed.

Lemma published_cons a acts s :
  published (a :: acts) s = published [a] s ++ published acts (step a s).
Proof. cbn [published]. rewrite app_nil_r. reflexivity. Qed.

Lemma log_append_only_aux acts s :
  log (bot (exec acts s)) = log (bot s) ++ published acts s
  /\ cycles_ok (exec acts s) = (cycles_ok s + length (published acts s))%nat
  /\ log_file (bot (exec acts s)) = log_file (bot s).
Proof.
  revert s. induction acts as [|a acts IH]; intros s.
  - cbn [exec fold_left published length]. rewrite app_nil_r.
    repeat split. lia.
  - rewrite exec_cons, published_cons.
    destruct (IH (step a s)) as [Hl [Hc Hf]].
    destruct (step_published a s) as [Hl1 Hc1].
    rewrite Hl, Hc, Hf, Hl1, Hc1, step_log_file, length_app, app_assoc.
    repeat split. lia.
Qed.

(** X6. The log is append-only over every run: whatever the worker and
    the request handlers do, in whatever order and from whatever
    state, the log afterwards is the log before followed by the
    snapshots published in between, in order: for each statement of
    line 154 the worker ran, the dict literal of lines 155-166 built
    from the attributes and the gathered values of that moment, with
    the clock read under the lock.  No entry is ever changed or
    removed, each publish counts one completed [try] body, and the
    path of the log file never changes. *)
Theorem log_append_only acts s :
  log (bot (exec acts s)) = log (bot s) ++ published acts s
  /\ cycles_ok (exec acts s) = (cycles_ok s + length (published acts s))%nat
  /\ log_file (bot (exec acts s)) = log_file (bot s).
Proof. apply log_append_only_aux. Qed.

Lemma make_snapshot_keys t b g : dom (make_snapshot t b g) = SNAPSHOT_KEYS.
Proof.
  unfold make_snapshot, SNAPSHOT_KEYS.
  rewrite !dom_insert_L, dom_empty_L. set_solver.
Qed.

(** X7. Every entry of the log has exactly the ten keys of the dict
    literal of lines 155-166, so never the key ["status"]; the current
    snapshot has at most those ten and ["status"]. *)
Theorem log_entries_keys acts coin0 vs0 interval0 log_file0 :
  let s := exec acts (start coin0 vs0 interval0 log_file0) in
  Forall (fun d : dict => dom d = SNAPSHOT_KEYS /\ d !! "status" = None)
    (log (bot s))
  /\ dom (_snap (bot s)) ⊆ SNAPSHOT_KEYS ∪ {[ "status" ]}.
Proof.
  intros s. subst s.
  induction acts as [|a acts [IH1 IH2]] using rev_ind.
  - split; [constructor |]. cbn. set_solver.
  - rewrite exec_snoc. set (s := exec acts (start coin0 vs0 interval0 log_file0)) in *.
    rewrite step_bot.
    destruct a; try (destruct (at_pc s); split; assumption).
    + destruct (at_pc s); try (split; assumption).
      rewrite publish_bot. cbn [log _snap]. split.
      * apply Forall_app. split; [exact IH1 |].
        constructor; [| constructor]. split; [apply make_snapshot_keys |].
        apply not_elem_of_dom. rewrite make_snapshot_keys.
        unfold SNAPSHOT_KEYS. set_solver.
      * rewrite make_snapshot_keys. set_solver.
    + assert (Hc : Forall (fun d : dict => dom d = SNAPSHOT_KEYS /\ d !! "status" = None)
                     (log (fst (configure coin1 vs1 interval1 (bot s) (hist s))))
                   /\ dom (_snap (fst (configure coin1 vs1 interval1 (bot s) (hist s))))
                      ⊆ SNAPSHOT_KEYS ∪ {[ "status" ]}).
      { cbn [configure fst log _snap]. split; [exact IH1 |].
        rewrite dom_insert_L. set_solver. }
      destruct (at_pc s); exact Hc.
Qed.

(** ** What reaches the outside *)

Lemma get_price_allowed path sym v : adds (allowed path) (get_price sym v).
Proof.
  unfold get_price, requests_get_json.
  destruct (SYMBOL_MAP !! upper sym) as [[|c cid]|]; try apply adds_raise.
  apply adds_bind.
  - apply adds_call. left. eauto.
  - intros j. apply adds_bind; [apply adds_lift |]. intros a.
    apply adds_bind; [apply adds_lift |]. intros b. apply adds_lift.
Qed.

Lemma get_history_allowed path sym v days :
  adds (allowed path) (get_history sym v days).
Proof.
  unfold get_history, requests_get_json.
  apply adds_bind.
  - apply adds_call. right. left. eauto.
  - intros data. apply adds_bind; [apply adds_lift |]. intros prices.
    apply adds_bind; [apply adds_lift |]. intros ps.
    apply adds_mapM. intros p h. exists []. rewrite read_point_hist.
    split; [reflexivity | constructor].
Qed.

Lemma latest_news_allowed path limit : adds (allowed path) (latest_news limit).
Proof.
  unfold latest_news. apply adds_bind.
  - apply adds_call. reflexivity.
  - intros es. apply adds_mapM. intros e. unfold read_title.
    destruct (title e); [apply adds_ret | apply adds_raise].
Qed.

Lemma get_prediction_allowed path sym v :
  adds (allowed path) (get_prediction sym v).
Proof.
  unfold get_prediction, requests_get_json.
  apply adds_try_except; [| intros e; apply adds_ret].
  apply adds_bind.
  - apply adds_call. right. right. eauto.
  - intros j. apply adds_bind; [apply adds_lift |]. intros a.
    apply adds_bind; [apply adds_lift |]. intros b.
    apply adds_bind; [apply adds_lift |]. intros pred_usd.
    destruct (str_eqb (upper v) (utf8 "USD")); [apply adds_ret |].
    apply adds_bind; [apply get_price_allowed |]. intros cur_vs.
    apply adds_bind; [apply get_price_allowed |]. intros cur_usd.
    apply adds_ret.
Qed.

Lemma groq_decision_allowed path news price prediction recent c v :
  adds (allowed path) (groq_decision news price prediction recent c v).
Proof.
  unfold groq_decision.
  destruct (key_missing GROQ_API_KEY) eqn:Hk; [apply adds_ret |].
  apply adds_bind.
  - apply adds_call. cbn [allowed]. auto.
  - intros choices. apply adds_bind; [apply adds_lift |]. intros content.
    apply adds_bind; [apply adds_lift |]. intros ai_raw.
    apply adds_bind; [apply adds_lift |]. intros first. apply adds_ret.
Qed.

(** X8. Over every run of the bot, everything that reaches the outside
    is one of: a GET of the CoinGecko simple-price or market-chart URL
    or of the CoinCodex coin-data URL, a parse of the CoinDesk feed, a
    chat with the model allam-2-7b under the configured key (never when
    the key is missing), a write of the log file named at construction,
    or a sleep of at least five seconds. *)
Theorem only_allowed_effects acts coin0 vs0 interval0 log_file0 :
  Forall (allowed log_file0)
    (hist (exec acts (start coin0 vs0 interval0 log_file0))).
Proof.
  induction acts as [|a acts IH] using rev_ind; [constructor |].
  rewrite exec_snoc.
  set (s := exec acts (start coin0 vs0 interval0 log_file0)) in *.
  assert (Hf : log_file (bot s) = log_file0).
  { destruct (log_append_only_aux acts (start coin0 vs0 interval0 log_file0))
      as [_ [_ H]]. exact H. }
  destruct (step_adds (allowed log_file0) a s) as [new [-> Hnew]];
    try (exact I); try (intros; exact I).
  - intros. apply get_price_allowed.
  - intros. apply get_history_allowed.
  - intros. apply latest_news_allowed.
  - intros. apply get_prediction_allowed.
  - intros. apply groq_decision_allowed.
  - cbn [allowed]. lia.
  - intros content. exact Hf.
  - apply Forall_app. split; assumption.
Qed.

(** ** The log file *)

Lemma last_written_skip new h :
  Forall not_a_write new -> last_written (new ++ h) = last_written h.
Proof.
  induction 1 as [|ev new Hev _ IH]; [reflexivity |].
  destruct ev; try destruct Hev; exact IH.
Qed.

Lemma network_not_a_write ev : network ev -> not_a_write ev.
Proof. destruct ev; try discriminate; intros _; exact I. Qed.

Lemma helper_last_written {A} (m : IO A) h :
  adds network m -> last_written (snd (m h)) = last_written h.
Proof.
  intros Hm. destruct (Hm h) as [new [-> F]]. apply last_written_skip.
  eapply Forall_impl; [exact F |]. apply network_not_a_write.
Qed.

Lemma publish_last_written g b h :
  last_written (snd (publish g b h))
  = Some (log_file b, log (fst (publish g b h))).
Proof.
  destruct (publish_hist g b h) as [mid [-> [-> | [e ->]]]]; reflexivity.
Qed.

Lemma step_log_persisted a s : log_persisted s -> log_persisted (step a s).
Proof.
  unfold log_persisted. intros H.
  destruct a; cbn [step hist bot snd snapshot api_log configure fst log log_file].
  - rewrite worker_step_events, worker_step_bot.
    destruct (at_pc s);
      try (rewrite helper_last_written;
           [exact H
           | first [apply get_price_adds | apply get_history_adds
                   | apply latest_news_adds | apply get_prediction_adds
                   | apply groq_decision_adds]]);
      try exact H.
    rewrite publish_last_written, publish_bot. cbn [log log_file].
    destruct (log (bot s)); reflexivity.
  - exact H.
  - exact H.
  - exact H.
  - unfold api_history.
    destruct (get_history_adds (coin (bot s)) (vs (bot s)) 1 (Acquire :: hist s))
      as [new [E F]].
    destruct (get_history _ _ _ _) as [r h']. cbn [snd] in *. subst h'.
    change (Release :: new ++ Acquire :: hist s)
      with ((Release :: new) ++ Acquire :: hist s).
    rewrite last_written_skip; [exact H |].
    constructor; [exact I |].
    eapply Forall_impl; [exact F |]. apply network_not_a_write.
Qed.

(** X9. Over every run, the last thing the program asked the log file
    to hold is the complete log as it is in memory, at the path given at
    construction; before the first publish nothing has been written.
    Each publish rewrites the file with the whole log, whether or not
    the write succeeds. *)
Theorem log_file_holds_whole_log acts coin0 vs0 interval0 log_file0 :
  let s := exec acts (start coin0 vs0 interval0 log_file0) in
  last_written (hist s)
  = match log (bot s) with
    | [] => None
    | _ => Some (log_file0, log (bot s))
    end.
Proof.
  intros s.
  assert (Hf : log_file (bot s) = log_file0).
  { destruct (log_append_only_aux acts (start coin0 vs0 interval0 log_file0))
      as [_ [_ H]]. exact H. }
  rewrite <- Hf. fold (log_persisted s). subst s. clear Hf.
  induction acts as [|a acts IH] using rev_ind; [reflexivity |].
  rewrite exec_snoc. apply step_log_persisted. exact IH.
Qed.

(** ** Iterations, sleeps and prints *)








(** ** A bot pointed at an unknown symbol *)







(** ** A reconfigure between the fetch and the publish *)

(** X12. When [configure] runs after a cycle has gathered its values
    and before it publishes (the worker is at line 154), the snapshot
    then published carries the new symbol, quote and interval next to
    the price and the decision obtained for the old ones; the
    ["status"] mark that [configure] had set is gone, and the log's last
    entry is that snapshot. *)
Theorem configure_before_publish s g c v i :
  at_pc s = L154 g ->
  let s' := step Worker (step (CallConfigure c v i) s) in
  _snap (bot s') !! "coin" = Some (VStr (upper c))
  /\ _snap (bot s') !! "vs" = Some (VStr (upper v))
  /\ _snap (bot s') !! "interval" = Some (VInt (Z.max 5 i))
  /\ _snap (bot s') !! "price" = Some (VFloat (g_price g))
  /\ _snap (bot s') !! "decision" = Some (VStr (g_decision g))
  /\ _snap (bot s') !! "status" = None
  /\ last (log (bot s')) = Some (_snap (bot s'))
  /\ (coin (bot s'), vs (bot s'), interval (bot s')) = (upper c, upper v, Z.max 5 i).
Proof.
  intros Hpc s'. subst s'.
  rewrite (step_bot Worker). cbn [step at_pc configure]. rewrite Hpc.
  rewrite publish_bot. cbn [bot fst coin vs interval log _snap].
  assert (Hs : forall t b g0, make_snapshot t b g0 !! "status" = None).
  { intros. apply not_elem_of_dom. rewrite make_snapshot_keys.
    unfold SNAPSHOT_KEYS. set_solver. }
  repeat match goal with |- _ /\ _ => split end;
    try apply Hs; try apply last_snoc; try reflexivity.
Qed.

(** ** The credential *)

(** X13. The key counts as missing exactly when the environment
    variable is unset, empty, or holds the placeholder text: line 48
    turns an unset or empty variable into the placeholder, so the key
    used is never empty and the emptiness test of line 108 never decides
    anything by itself. *)
Theorem key_missing_iff :
  GROQ_API_KEY <> []
  /\ (key_missing GROQ_API_KEY = true
      <-> getenv_GROQ_API_KEY = None \/ getenv_GROQ_API_KEY = Some []
          \/ getenv_GROQ_API_KEY = Some GROQ_PLACEHOLDER).
Proof.
  unfold GROQ_API_KEY, GROQ_API_KEY_of.
  destruct getenv_GROQ_API_KEY as [[|c k]|].
  - split; [vm_compute; discriminate |]. split; [auto |]. intros _.
    vm_compute. reflexivity.
  - split; [discriminate |]. cbn [key_missing]. unfold str_eqb. split.
    + intros H. apply bool_decide_eq_true in H. rewrite H. auto.
    + intros [H | [H | H]]; [discriminate H | discriminate H |].
      apply bool_decide_eq_true. congruence.
  - split; [vm_compute; discriminate |]. split; [auto |]. intros _.
    vm_compute. reflexivity.
Qed.

(** ** The reply and the decision *)

Lemma lstrip_head s c r : lstrip s = c :: r -> isspace c = false.
Proof.
  induction s as [|a s IH]; cbn [lstrip]; [discriminate |].
  destruct (isspace a) eqn:Ha; [exact IH |].
  intros H. injection H as <- _. exact Ha.
Qed.

Lemma lstrip_snoc l c : isspace c = false -> lstrip (l ++ [c]) = lstrip l ++ [c].
Proof.
  intros Hc. induction l as [|a l IH]; cbn [app lstrip].
  - rewrite Hc. reflexivity.
  - destruct (isspace a); [exact IH | reflexivity].
Qed.

Lemma rstrip_cons c r : isspace c = false -> rstrip (c :: r) = c :: rstrip r.
Proof.
  intros Hc. unfold rstrip. cbn [rev]. rewrite lstrip_snoc by exact Hc.
  rewrite rev_app_distr. reflexivity.
Qed.

Lemma rstrip_last s c : last (rstrip s) = Some c -> isspace c = false.
Proof.
  unfold rstrip. destruct (lstrip (rev s)) as [|a t] eqn:E.
  - discriminate.
  - cbn [rev]. rewrite last_snoc. intros H. injection H as <-.
    eapply lstrip_head. exact E.
Qed.

(** A stripped string is empty or starts and ends with a character
    that is not whitespace. *)
Lemma strip_trimmed s :
  strip s = []
  \/ (exists c r, strip s = c :: r /\ isspace c = false)
     /\ (exists c, last (strip s) = Some c /\ isspace c = false).
Proof.
  unfold strip. destruct (lstrip s) as [|c r] eqn:E; [left; reflexivity |].
  right. pose proof (lstrip_head s c r E) as Hc. split.
  - exists c, (rstrip r). split; [apply rstrip_cons; exact Hc | exact Hc].
  - destruct (last (rstrip (c :: r))) as [d|] eqn:Hl.
    + exists d. split; [reflexivity |]. eapply rstrip_last. exact Hl.
    + rewrite rstrip_cons in Hl by exact Hc.
      destruct (rstrip r); cbn in Hl; [discriminate Hl |].
      apply last_None in Hl. discriminate Hl.
Qed.

Lemma split_ws_aux_tokens cur s :
  nonspace cur ->
  Forall (fun t => t <> [] /\ nonspace t) (split_ws_aux cur s).
Proof.
  revert cur. induction s as [|c s IH]; intros cur Hcur; cbn [split_ws_aux].
  - destruct cur as [|a cur]; [constructor |].
    constructor; [| constructor]. split.
    + cbn [rev]. intros H. apply app_eq_nil in H as [_ H]. discriminate H.
    + apply Forall_rev. exact Hcur.
  - destruct (isspace c) eqn:Hc.
    + destruct cur as [|a cur]; [apply IH; constructor |].
      constructor; [| apply IH; constructor]. split.
      * cbn [rev]. intros H. apply app_eq_nil in H as [_ H]. discriminate H.
      * apply Forall_rev. exact Hcur.
    + apply IH. constructor; assumption.
Qed.

Lemma split_ws_aux_nonspace cur t :
  nonspace t -> (cur <> [] \/ t <> []) ->
  split_ws_aux cur t = [rev cur ++ t].
Proof.
  intros Ht. revert cur. induction Ht as [|c t Hc _ IH]; intros cur Hne.
  - cbn [split_ws_aux]. destruct cur; [destruct Hne; contradiction |].
    rewrite app_nil_r. reflexivity.
  - cbn [split_ws_aux]. rewrite Hc, IH by (left; discriminate).
    cbn [rev]. rewrite <- app_assoc. reflexivity.
Qed.

Lemma strip_nonspace t : nonspace t -> strip t = t.
Proof.
  intros Ht. unfold strip.
  assert (Hl : forall u, nonspace u -> lstrip u = u).
  { intros u Hu. destruct Hu as [|c u Hc _]; [reflexivity |].
    cbn [lstrip]. rewrite Hc. reflexivity. }
  rewrite (Hl t Ht). unfold rstrip. rewrite Hl, rev_involutive; [reflexivity |].
  apply Forall_rev. exact Ht.
Qed.

(** X14. With a credential configured, whenever [groq_decision]
    returns, the raw response it returns is not empty and neither
    starts nor ends with whitespace, and the decision is the upper-cased
    first whitespace-free token of it, whatever that token is: nothing
    confines it to BUY, SELL or HOLD, and a reply that is any one token
    [t] yields the decision [upper t]. *)
Theorem decision_is_first_token news price prediction recent c v h :
  key_missing GROQ_API_KEY = false ->
  (forall d p a,
      fst (groq_decision news price prediction recent c v h) = Ok (d, p, a) ->
      (exists c0 r, a = c0 :: r /\ isspace c0 = false)
      /\ (exists c1, last a = Some c1 /\ isspace c1 = false)
      /\ exists tok rest, split_ws a = tok :: rest /\ d = upper tok
                          /\ tok <> [] /\ nonspace tok)
  /\ (forall t rest,
      t <> [] -> nonspace t ->
      groq_choices world h GROQ_API_KEY MODEL
        (build_prompt news price prediction recent c v) = Ok (Some t :: rest) ->
      fst (groq_decision news price prediction recent c v h)
      = Ok (upper t, build_prompt news price prediction recent c v, t)).
Proof.
  intros Hk. split.
  - intros d p a. rewrite groq_decision_unfold. cbv zeta. rewrite Hk.
    destruct (groq_choices world h GROQ_API_KEY MODEL _) as [[|[s|] ?]|e];
      cbn [fst]; try (intros H; discriminate H).
    destruct (split_ws (strip s)) as [|tok rest] eqn:Hs; cbn [fst];
      [intros H; discriminate H |].
    intros H. injection H as <- _ <-.
    assert (Ht : Forall (fun t => t <> [] /\ nonspace t) (split_ws_aux [] (strip s)))
      by (apply split_ws_aux_tokens; constructor).
    fold (split_ws (strip s)) in Ht. rewrite Hs in Ht.
    apply Forall_cons in Ht as [[Hne Hns] _].
    destruct (strip_trimmed s) as [E | [H1 H2]].
    + rewrite E in Hs. discriminate Hs.
    + split; [exact H1 |]. split; [exact H2 |].
      exists tok, rest. auto.
  - intros t rest Hne Ht Hw. rewrite groq_decision_unfold. cbv zeta.
    rewrite Hk, Hw, (strip_nonspace t Ht). unfold split_ws.
    rewrite split_ws_aux_nonspace by auto. reflexivity.
Qed.

(** ** Reconfigure twice *)

(** X15. Reconfiguring is last-wins: two reconfigures in a row leave
    the bot exactly as the second alone would; and a reconfigure leaves
    the log, the log file and every key of the current snapshot other
    than ["status"] untouched. *)
Theorem configure_last_wins c1 v1 i1 c2 v2 i2 b h1 h2 h3 :
  fst (configure c2 v2 i2 (fst (configure c1 v1 i1 b h1)) h2)
  = fst (configure c2 v2 i2 b h3)
  /\ log (fst (configure c1 v1 i1 b h1)) = log b
  /\ log_file (fst (configure c1 v1 i1 b h1)) = log_file b
  /\ (forall k, k <> "status" ->
                _snap (fst (configure c1 v1 i1 b h1)) !! k = _snap b !! k).
Proof.
  cbn [configure fst coin vs interval _snap log log_file].
  rewrite insert_insert_eq. repeat split.
  intros k Hk. apply lookup_insert_ne. congruence.
Qed.

(** ** Six decimals *)

Lemma uint_digits_length d : length (uint_digits d) = Decimal.nb_digits d.
Proof. induction d; cbn [uint_digits Decimal.nb_digits length]; congruence. Qed.

Lemma uint_digits_are_digits d : Forall is_digit (uint_digits d).
Proof.
  induction d; cbn [uint_digits]; constructor; try assumption;
    unfold is_digit; lia.
Qed.

Lemma of_uint_acc_lower d acc :
  (Npos acc * 10 ^ N.of_nat (Decimal.nb_digits d)
   <= Npos (Pos.of_uint_acc d acc))%N.
Proof.
  revert acc.
  induction d as [|d IH|d IH|d IH|d IH|d IH|d IH|d IH|d IH|d IH|d IH];
    intros acc; cbn [Pos.of_uint_acc Decimal.nb_digits];
    [rewrite N.pow_0_r; lia | ..];
    rewrite Nat2N.inj_succ, N.pow_succ_r';
    (etransitivity; [| apply IH]);
    generalize (10 ^ N.of_nat (Decimal.nb_digits d))%N; intros P; nia.
Qed.

Lemma nzhead_head d :
  match Decimal.nzhead d with Decimal.D0 _ => False | _ => True end.
Proof. induction d; cbn [Decimal.nzhead]; auto. Qed.

Lemma normal_lower d :
  Decimal.unorm d = d ->
  d = Decimal.zero
  \/ (10 ^ N.of_nat (pred (Decimal.nb_digits d)) <= N.of_uint d)%N.
Proof.
  intros Hn. destruct d as [|d|d|d|d|d|d|d|d|d|d];
    try (right; cbn [Decimal.nb_digits pred N.of_uint Pos.of_uint];
         etransitivity; [| apply of_uint_acc_lower]; lia).
  - discriminate Hn.
  - left. unfold Decimal.unorm in Hn. cbn [Decimal.nzhead] in Hn.
    pose proof (nzhead_head d) as Hh.
    destruct (Decimal.nzhead d); try discriminate Hn;
      [symmetry; exact Hn | destruct Hh].
Qed.

Lemma nat_digits_length n :
  (n < 10 ^ 6)%N -> (1 <= length (nat_digits n) <= 6)%nat.
Proof.
  intros Hlt. unfold nat_digits. rewrite uint_digits_length.
  pose proof (DecimalN.Unsigned.of_to n) as Hof.
  pose proof (DecimalN.Unsigned.to_of (N.to_uint n)) as Hto.
  rewrite Hof in Hto. symmetry in Hto.
  destruct (normal_lower _ Hto) as [Hz | Hlow].
  - rewrite Hz. cbn. lia.
  - rewrite Hof in Hlow.
    destruct (Decimal.nb_digits (N.to_uint n)) as [|k] eqn:Hk.
    + destruct (N.to_uint n); try discriminate Hk. discriminate Hto.
    + cbn [pred] in Hlow. split; [lia |].
      destruct (le_lt_dec k 5) as [Hle | Hgt]; [lia | exfalso].
      assert (10 ^ 6 <= 10 ^ N.of_nat k)%N by (apply N.pow_le_mono_r; lia).
      lia.
Qed.

Lemma nat_digits_nonempty n : nat_digits n <> [].
Proof.
  unfold nat_digits. intros H. apply (f_equal (@length N)) in H.
  rewrite uint_digits_length in H. cbn [length] in H.
  pose proof (DecimalN.Unsigned.to_of (N.to_uint n)) as Hto.
  rewrite DecimalN.Unsigned.of_to in Hto.
  destruct (N.to_uint n); try discriminate H. discriminate Hto.
Qed.

Lemma zero_pad_six s :
  (length s <= 6)%nat -> Forall is_digit s ->
  length (zero_pad 6 s) = 6%nat /\ Forall is_digit (zero_pad 6 s).
Proof.
  intros Hl Hd. unfold zero_pad. split.
  - rewrite length_app, repeat_length. lia.
  - apply Forall_app. split; [| exact Hd].
    apply List.Forall_forall. intros c Hc. apply repeat_spec in Hc. subst c.
    unfold is_digit. lia.
Qed.

(** X16. Fixed-point formatting [%.6f] of a number always gives an
    optional minus sign, at least one decimal digit, a point and exactly
    six decimal digits, whatever the magnitude; only the three special
    values print differently, as [nan], [inf] and [-inf].  So every
    forecast and every recent price of the request text carries six
    decimals, or is one of those three words. *)
Theorem format_6f_six_decimals (x : float) :
  match x with
  | S754_nan => format_6f x = utf8 "nan"
  | S754_infinity s => format_6f x = sign_str s ++ utf8 "inf"
  | S754_zero s | S754_finite s _ _ => six_decimals s (format_6f x)
  end.
Proof.
  destruct x as [s | s | | s m e]; try reflexivity.
  - exists (utf8 "0"), (utf8 "000000"). split; [reflexivity |].
    split; [discriminate |]. split; [| split; [| reflexivity]];
      repeat (constructor; [unfold is_digit; cbn; lia |]); constructor.
  - unfold format_6f. cbv zeta.
    set (q := if 0 <=? e then _ else _).
    assert (Hm : (Z.to_N (q mod 10 ^ 6) < 10 ^ 6)%N).
    { pose proof (Z.mod_pos_bound q (10 ^ 6) ltac:(lia)). lia. }
    destruct (zero_pad_six (nat_digits (Z.to_N (q mod 10 ^ 6))))
      as [Hl Hd].
    + apply nat_digits_length. exact Hm.
    + apply uint_digits_are_digits.
    + eexists _, _. split; [reflexivity |].
      split; [apply nat_digits_nonempty |].
      split; [apply uint_digits_are_digits |]. split; assumption.
Qed.

End Program.

(* ================================================================== *)
(** * Closed examples on the test doubles *)
(* ================================================================== *)

Abbreviation mock_cycle w key :=
  (run_cycle Mock.upper Mock.lower Mock.float_of_str Mock.int_of_str
     Mock.SYMBOL_MAP key w).
Abbreviation mock_exec w key :=
  (exec Mock.upper Mock.lower Mock.float_of_str Mock.int_of_str
     Mock.SYMBOL_MAP key w).
Abbreviation mock_gather w key :=
  (gather Mock.upper Mock.lower Mock.float_of_str Mock.int_of_str
     Mock.SYMBOL_MAP key w).

(** [bot = TradingBot()] of line 191, with the defaults of line 127. *)
Abbreviation mock_start :=
  (start Mock.upper (utf8 "XRP") (utf8 "USD") 60 (utf8 "trade_log.json")).

(** A full iteration is at most seven statements. *)
Abbreviation one_cycle := [Worker; Worker; Worker; Worker; Worker; Worker; Worker].

Lemma groq_decision_without_key_witness :
  key_missing (GROQ_API_KEY None) = true
  /\ groq_decision Mock.upper None Mock.healthy
       [utf8 "A"; utf8 "B"] (float_of_decimal 523 (-3)) None []
       (utf8 "XRP") (utf8 "USD") []
     = (Ok (utf8 "HOLD",
            build_prompt [utf8 "A"; utf8 "B"] (float_of_decimal 523 (-3)) None []
              (utf8 "XRP") (utf8 "USD"),
            KEY_MISSING), []).
Proof.
  split.
  - vm_compute. reflexivity.
  - apply groq_decision_without_key. vm_compute. reflexivity.
Defined.

Lemma groq_decision_needs_token_witness :
  key_missing (GROQ_API_KEY (Some (utf8 "gsk_live"))) = false
  /\ fst (groq_decision Mock.upper (Some (utf8 "gsk_live")) Mock.blank_reply
            [] (float_of_decimal 523 (-3)) None [] (utf8 "XRP") (utf8 "USD") [])
     = Raise IndexError.
Proof.
  split.
  - vm_compute. reflexivity.
  - refine (proj1 (groq_decision_needs_token Mock.upper Mock.lower
                     Mock.float_of_str Mock.int_of_str (Some (utf8 "gsk_live"))
                     Mock.blank_reply [] (float_of_decimal 523 (-3)) None []
                     (utf8 "XRP") (utf8 "USD") [] [32%N; 10%N; 9%N] [] _ _) _).
    + vm_compute. reflexivity.
    + reflexivity.
    + repeat constructor.
Defined.


(** The state of a cycle that has fetched price, history and headlines
    and is about to ask for the forecast, in a world whose forecast
    provider is down. *)
Abbreviation before_forecast := (mock_exec Mock.no_forecast None [Worker; Worker; Worker] mock_start).

Lemma get_prediction_never_raises_witness :
  get_prediction Mock.upper Mock.lower Mock.float_of_str Mock.SYMBOL_MAP
    Mock.no_forecast (utf8 "XRP") (utf8 "USD") []
  = (Ok None, [HttpGet Mock.forecast_url])
  /\ _snap (bot (mock_cycle Mock.no_forecast None before_forecast)) !! "prediction"
     = Some VNone
  /\ length (log (bot (mock_cycle Mock.no_forecast None before_forecast))) = 1%nat.
Proof.
  split.
  - pose proof (get_prediction_never_raises Mock.upper Mock.lower
                  Mock.float_of_str Mock.int_of_str Mock.SYMBOL_MAP None
                  Mock.no_forecast (utf8 "XRP") (utf8 "USD") []) as H.
    cbv zeta in H. destruct H as [_ [_ [H _]]].
    apply (H RequestError). vm_compute. reflexivity.
  - pose proof (get_prediction_never_raises Mock.upper Mock.lower
                  Mock.float_of_str Mock.int_of_str Mock.SYMBOL_MAP None
                  Mock.no_forecast (coin (bot before_forecast))
                  (vs (bot before_forecast)) (hist before_forecast)) as H.
    cbv zeta in H. destruct H as [_ [_ [_ [_ [_ [_ [_ H]]]]]]].
    specialize (H before_forecast (float_of_decimal 523 (-3))
                  [(1000, float_of_decimal 50 (-2)); (2000, float_of_decimal 51 (-2));
                   (3000, float_of_decimal 52 (-2))]
                  [utf8 "A"; utf8 "B"] RequestError).
    destruct H as [_ H].
    + reflexivity.
    + reflexivity.
    + reflexivity.
    + vm_compute. reflexivity.
    + vm_compute. reflexivity.
    + destruct H as [Hp [Hl _]].
      * vm_compute. reflexivity.
      * split; [exact Hp |]. rewrite Hl. vm_compute. reflexivity.
Defined.


(** A bot reconfigured with an interval of 9223372037 seconds, after
    the iteration that follows. *)
Abbreviation stalled :=
  (mock_exec Mock.healthy None
     (CallConfigure (utf8 "XRP") (utf8 "USD") 9223372037 :: one_cycle)
     mock_start).





Lemma snapshot_matches_log_witness :
  let s := mock_exec Mock.healthy None one_cycle mock_start in
  let s' := step Mock.upper Mock.lower Mock.float_of_str Mock.int_of_str
              Mock.SYMBOL_MAP None Mock.healthy
              (CallConfigure (utf8 "btc") (utf8 "eur") 30) s in
  forallb (fun a => negb (is_configure a)) one_cycle = true
  /\ _snap (bot s) = last_logged (bot s)
  /\ length (log (bot s)) = cycles_ok s
  /\ _snap (bot s') = <["status" := STATUS_MARK]> (last_logged (bot s'))
  /\ _snap (bot s') <> last_logged (bot s').
Proof.
  pose proof (snapshot_matches_log Mock.upper Mock.lower Mock.float_of_str
                Mock.int_of_str Mock.SYMBOL_MAP None Mock.healthy one_cycle
                (utf8 "XRP") (utf8 "USD") 60 (utf8 "trade_log.json")) as H.
  cbv zeta in H. destruct H as [H1 [_ [_ [H4 [H5 _]]]]].
  destruct (H5 (utf8 "btc") (utf8 "eur") 30) as [_ [_ [Hm [_ [_ [Hd _]]]]]].
  split; [reflexivity |]. split; [apply H4; reflexivity |].
  split; [exact H1 |]. split; [exact Hm | exact Hd].
Defined.

(** After a successful cycle and a reconfigure, the log's last element
    is present and is not the current snapshot: only the latter carries
    the key ["status"]. *)
Lemma reconfigure_counterexample :
  let s := mock_exec Mock.healthy None
             (one_cycle ++ [CallConfigure (utf8 "XRP") (utf8 "USD") 60])
             mock_start in
  exists d, last (log (bot s)) = Some d
            /\ d <> _snap (bot s)
            /\ d !! "status" = None
            /\ _snap (bot s) !! "status" = Some (VStr (utf8 "reconfigured")).
Proof.
  intros s.
  destruct (last (log (bot s))) as [d|] eqn:Hd; [| vm_compute in Hd; discriminate Hd].
  exists d.
  assert (H1 : d !! "status" = None).
  { apply (f_equal (fun o => match o with Some m => m !! "status" | None => None end))
      in Hd. rewrite <- Hd. vm_compute. reflexivity. }
  assert (H2 : _snap (bot s) !! "status" = Some (VStr (utf8 "reconfigured")))
    by (vm_compute; reflexivity).
  split; [reflexivity |]. split; [| split; assumption].
  intros E. rewrite E, H2 in H1. discriminate H1.
Defined.

(** C6 (where the code departs from it).  For a symbol that is not in
    the map, [get_price] raises the unknown-symbol error before any
    request, but [get_history] has no such check: it requests the chart
    of the id "None" and, CoinGecko answering with an error object,
    returns the empty list. *)
Theorem get_history_skips_symbol_check :
  get_price Mock.upper Mock.lower Mock.float_of_str Mock.SYMBOL_MAP
    Mock.coin_not_found (utf8 "NOPE") (utf8 "USD") []
  = (Raise (ValueError (Some (utf8 "Unknown symbol NOPE"))), [])
  /\ get_history Mock.upper Mock.lower Mock.float_of_str Mock.int_of_str
       Mock.SYMBOL_MAP Mock.coin_not_found (utf8 "NOPE") (utf8 "USD") 1 []
     = (Ok [],
        [HttpGet (utf8 "https://api.coingecko.com/api/v3/coins/None/market_chart?vs_currency=usd&days=1&interval=hourly")]).
Proof.
  split; vm_compute; reflexivity.
Qed.

(** The history [api_history] leaves on a fresh bot. *)
Example api_history_example :
  snd (api_history Mock.upper Mock.lower Mock.float_of_str Mock.int_of_str
         Mock.SYMBOL_MAP Mock.healthy (bot mock_start) [])
  = [Release; HttpGet Mock.chart_url; Acquire].
Proof. vm_compute. reflexivity. Qed.

(* ================================================================== *)
(** * Closed examples for the further properties *)
(* ================================================================== *)

Lemma symbol_map_last_listing_wins_witness :
  exists m,
    _symbol_map Mock.upper Mock.listing []
    = (Ok m, [HttpGet COINGECKO_LIST_URL])
    /\ m !! utf8 "XRP" = Some (JStr (utf8 "xrp-classic"))
    /\ m !! utf8 "BTC" = Some (JStr (utf8 "bitcoin"))
    /\ m !! utf8 "xrp" = None.
Proof.
  destruct (proj1 (proj2 (symbol_map_last_listing_wins Mock.upper Mock.listing []))
              Mock.listing_body
              [JObj [(utf8 "id", JStr (utf8 "ripple"));
                     (utf8 "symbol", JStr (utf8 "xrp"));
                     (utf8 "name", JStr (utf8 "XRP"))];
               JObj [(utf8 "id", JStr (utf8 "bitcoin"));
                     (utf8 "symbol", JStr (utf8 "btc"));
                     (utf8 "name", JStr (utf8 "Bitcoin"))];
               JObj [(utf8 "id", JStr (utf8 "xrp-classic"));
                     (utf8 "symbol", JStr (utf8 "Xrp"));
                     (utf8 "name", JStr (utf8 "XRP Classic"))]]
              [(utf8 "xrp", JStr (utf8 "ripple"));
               (utf8 "btc", JStr (utf8 "bitcoin"));
               (utf8 "Xrp", JStr (utf8 "xrp-classic"))])
    as [m [Hm Hk]].
  - vm_compute. reflexivity.
  - reflexivity.
  - constructor; [| constructor; [| constructor; [| constructor]]];
      (eexists; split; [reflexivity | split; vm_compute; reflexivity]).
  - exists m. split; [exact Hm |].
    rewrite !Hk. vm_compute. repeat split.
Defined.

Lemma get_price_one_request_witness :
  Mock.SYMBOL_MAP !! Mock.upper (utf8 "xrp") = Some (utf8 "ripple")
  /\ get_price Mock.upper Mock.lower Mock.float_of_str Mock.SYMBOL_MAP
       Mock.healthy (utf8 "xrp") (utf8 "USD") []
     = (Ok (float_of_decimal 523 (-3)), [HttpGet Mock.price_url]).
Proof.
  assert (Hm : Mock.SYMBOL_MAP !! Mock.upper (utf8 "xrp") = Some (utf8 "ripple"))
    by (vm_compute; reflexivity).
  split; [exact Hm |].
  refine (proj2 (proj2 (get_price_one_request Mock.upper Mock.lower
                          Mock.float_of_str Mock.SYMBOL_MAP Mock.healthy
                          (utf8 "xrp") (utf8 "USD") []))
            (utf8 "ripple") Mock.price_body
            (JObj [(utf8 "usd", JFloat (float_of_decimal 523 (-3)))])
            (float_of_decimal 523 (-3)) Hm _ _ _ _).
  - vm_compute. discriminate.
  - vm_compute. reflexivity.
  - vm_compute. reflexivity.
  - vm_compute. reflexivity.
Defined.

Lemma get_history_points_witness :
  get_history Mock.upper Mock.lower Mock.float_of_str Mock.int_of_str
    Mock.SYMBOL_MAP Mock.healthy (utf8 "XRP") (utf8 "USD") 1 []
  = (Ok [(1000, float_of_decimal 50 (-2)); (2000, float_of_decimal 51 (-2));
         (3000, float_of_decimal 52 (-2))],
     [HttpGet Mock.chart_url]).
Proof.
  refine (proj1 (get_history_points Mock.upper Mock.lower Mock.float_of_str
                   Mock.int_of_str Mock.SYMBOL_MAP Mock.healthy
                   (utf8 "XRP") (utf8 "USD") 1 [])
            [(utf8 "prices",
              JArr [JArr [JInt 1000; JFloat (float_of_decimal 50 (-2))];
                    JArr [JInt 2000; JFloat (float_of_decimal 51 (-2))];
                    JArr [JInt 3000; JFloat (float_of_decimal 52 (-2))]])]
            [(1000, float_of_decimal 50 (-2)); (2000, float_of_decimal 51 (-2));
             (3000, float_of_decimal 52 (-2))] _ _).
  - vm_compute. reflexivity.
  - vm_compute. reflexivity.
Defined.

(** The state of a cycle that has fetched the price and is about to
    fetch the chart. *)
Abbreviation before_chart := (mock_exec Mock.healthy None [Worker] mock_start).

Lemma recent_window_witness :
  at_pc before_chart = L148 (float_of_decimal 523 (-3))
  /\ hist (mock_exec Mock.healthy None [Worker; Worker; Worker; Worker]
             before_chart)
     = snd (groq_decision Mock.upper None Mock.healthy
              [utf8 "A"; utf8 "B"] (float_of_decimal 523 (-3))
              (Some (float_of_decimal 55 (-2)))
              [float_of_decimal 50 (-2); float_of_decimal 51 (-2);
               float_of_decimal 52 (-2)]
              (utf8 "XRP") (utf8 "USD")
              [HttpGet Mock.forecast_url; FeedParse COINDESK_RSS;
               HttpGet Mock.chart_url; HttpGet Mock.price_url]).
Proof.
  assert (Hpc : at_pc before_chart = L148 (float_of_decimal 523 (-3)))
    by (vm_compute; reflexivity).
  split; [exact Hpc |].
  pose proof (recent_window Mock.upper Mock.lower Mock.float_of_str
                Mock.int_of_str Mock.SYMBOL_MAP None Mock.healthy
                before_chart (float_of_decimal 523 (-3))
                [(1000, float_of_decimal 50 (-2));
                 (2000, float_of_decimal 51 (-2));
                 (3000, float_of_decimal 52 (-2))]
                [HttpGet Mock.chart_url; HttpGet Mock.price_url]
                [utf8 "A"; utf8 "B"]
                [FeedParse COINDESK_RSS; HttpGet Mock.chart_url;
                 HttpGet Mock.price_url]
                (Some (float_of_decimal 55 (-2)))
                [HttpGet Mock.forecast_url; FeedParse COINDESK_RSS;
                 HttpGet Mock.chart_url; HttpGet Mock.price_url]
                Hpc) as H.
  cbv zeta in H. destruct H as [_ [_ [_ [H _]]]].
  - vm_compute. reflexivity.
  - vm_compute. reflexivity.
  - vm_compute. reflexivity.
  - rewrite H. reflexivity.
Defined.

Lemma cycle_request_budget_witness :
  at_pc mock_start = L147
  /\ exists new prompt,
       hist (mock_cycle Mock.healthy None mock_start) = new ++ hist mock_start
       /\ requests_of new
            `sublist_of` cycle_requests Mock.upper Mock.lower Mock.SYMBOL_MAP None
                           (bot mock_start) prompt
       /\ (network_calls new <= 7)%nat.
Proof.
  split; [reflexivity |].
  destruct (cycle_request_budget Mock.upper Mock.lower Mock.float_of_str
              Mock.int_of_str Mock.SYMBOL_MAP None Mock.healthy mock_start)
    as [new [prompt [Hh [Hs [_ Hn]]]]].
  - reflexivity.
  - exists new, prompt. split; [exact Hh |]. split; [exact Hs | exact Hn].
Defined.

(** A bot started on a ticker the listing does not have. *)
Abbreviation doge_start :=
  (start Mock.upper (utf8 "doge") (utf8 "USD") 60 (utf8 "trade_log.json")).


(** The state of a cycle that has gathered everything and is about to
    publish. *)
Abbreviation before_publish :=
  (mock_exec Mock.healthy None [Worker; Worker; Worker; Worker; Worker] mock_start).

Lemma configure_before_publish_witness :
  let s' :=
    step Mock.upper Mock.lower Mock.float_of_str Mock.int_of_str
      Mock.SYMBOL_MAP None Mock.healthy Worker
      (step Mock.upper Mock.lower Mock.float_of_str Mock.int_of_str
         Mock.SYMBOL_MAP None Mock.healthy
         (CallConfigure (utf8 "btc") (utf8 "eur") 30) before_publish) in
  _snap (bot s') !! "coin" = Some (VStr (Mock.upper (utf8 "btc")))
  /\ _snap (bot s') !! "price" = Some (VFloat (float_of_decimal 523 (-3)))
  /\ _snap (bot s') !! "status" = None.
Proof.
  assert (Hpc : exists g, at_pc before_publish = L154 g
                          /\ g_price g = float_of_decimal 523 (-3)).
  { eexists. split; vm_compute; reflexivity. }
  destruct Hpc as [g [Hpc Hg]].
  destruct (configure_before_publish Mock.upper Mock.lower Mock.float_of_str
              Mock.int_of_str Mock.SYMBOL_MAP None Mock.healthy
              before_publish g (utf8 "btc") (utf8 "eur") 30 Hpc)
    as [H1 [_ [_ [H4 [_ [H6 _]]]]]].
  cbv zeta. rewrite <- Hg. split; [exact H1 | split; [exact H4 | exact H6]].
Defined.

Lemma key_missing_iff_witness :
  key_missing (GROQ_API_KEY (Some GROQ_PLACEHOLDER)) = true
  /\ GROQ_API_KEY (Some []) <> [].
Proof.
  split.
  - apply (proj2 (proj2 (key_missing_iff (Some GROQ_PLACEHOLDER)))).
    right. right. reflexivity.
  - exact (proj1 (key_missing_iff (Some []))).
Defined.

Lemma decision_is_first_token_witness :
  key_missing (GROQ_API_KEY (Some (utf8 "gsk_live"))) = false
  /\ (exists tok rest,
        split_ws (utf8 "buy now") = tok :: rest
        /\ utf8 "BUY" = Mock.upper tok /\ tok <> [] /\ nonspace tok)
  /\ fst (groq_decision Mock.upper (Some (utf8 "gsk_live")) Mock.no_forecast
            [] (float_of_decimal 523 (-3)) None [] (utf8 "XRP") (utf8 "USD") [])
     = Ok (Mock.upper (utf8 "hold"),
           build_prompt [] (float_of_decimal 523 (-3)) None []
             (utf8 "XRP") (utf8 "USD"),
           utf8 "hold").
Proof.
  assert (Hk : key_missing (GROQ_API_KEY (Some (utf8 "gsk_live"))) = false)
    by (vm_compute; reflexivity).
  split; [exact Hk |]. split.
  - refine (proj2 (proj2 (proj1 (decision_is_first_token Mock.upper
                                   (Some (utf8 "gsk_live")) Mock.healthy
                                   [] (float_of_decimal 523 (-3)) None []
                                   (utf8 "XRP") (utf8 "USD") [] Hk)
                            (utf8 "BUY")
                            (build_prompt [] (float_of_decimal 523 (-3)) None []
                               (utf8 "XRP") (utf8 "USD"))
                            (utf8 "buy now") _))).
    vm_compute. reflexivity.
  - refine (proj2 (decision_is_first_token Mock.upper
                     (Some (utf8 "gsk_live")) Mock.no_forecast
                     [] (float_of_decimal 523 (-3)) None []
                     (utf8 "XRP") (utf8 "USD") [] Hk)
              (utf8 "hold") [] _ _ _).
    + vm_compute. discriminate.
    + vm_compute. repeat constructor.
    + reflexivity.
Defined.

Lemma configure_last_wins_witness :
  _snap (fst (configure Mock.upper (utf8 "btc") (utf8 "eur") 30
                (bot before_publish) []))
    !! "coin"
  = _snap (bot before_publish) !! "coin".
Proof.
  refine (proj2 (proj2 (proj2
            (configure_last_wins Mock.upper (utf8 "btc") (utf8 "eur") 30
               (utf8 "eth") (utf8 "usd") 10 (bot before_publish) [] [] [])))
            "coin" _).
  vm_compute. discriminate.
Defined.
